(** * catalyst: fields, schemas and results

    A shallow embedding of the marshalling engine of [catalyst]
    ([catalyst/utils.py], [catalyst/fields.py], [catalyst/catalyst.py]).

    Python values are a first-order datatype [value]; a Python [dict] that
    only serves as a keyed mapping is a [gmap]; a [dict] whose iteration order
    drives the control flow (the field registries) is an ordered association
    list.  A call that may raise returns [res]: [Ok v] for a normal return and
    [Raise e] for an exception object [e]. *)

From stdpp Require Import gmap strings list fin_maps.
From Stdlib Require Import ZArith.

Set Warnings "-register-all".
Set Default Proof Using "Type".

(* ===================================================================== *)
(** ** catalyst/utils.py *)
(* ===================================================================== *)

Module Utils.

(** Keys of the mappings the engine builds: a field's [name] or [key]
    (a string, or [None] while the field is unbound) and, in batch mode,
    the index of an item. *)
Inductive pykey :=
| KNone
| KStr (s : string)
| KInt (n : nat).

#[global] Instance pykey_eq_dec : EqDecision pykey.
Proof. solve_decision. Defined.

#[global] Instance pykey_countable : Countable pykey.
Proof.
  refine (inj_countable'
    (fun k => match k with
              | KNone => inl ()
              | KStr s => inr (inl s)
              | KInt n => inr (inr n)
              end)
    (fun x => match x with
              | inl _ => KNone
              | inr (inl s) => KStr s
              | inr (inr n) => KInt n
              end) _).
  by intros [].
Defined.

(** [DumpResult] and [LoadResult], the two subclasses of [CatalystResult]. *)
Inductive result_class := DumpResult | LoadResult.

(** Python objects that travel through the engine.  [VMissing] is the
    module-level sentinel [missing = _Missing()]; [VExc cls msg] is an
    exception instance of class [cls] built from the single argument [msg];
    [VResult] is a [CatalystResult] instance. *)
Inductive value :=
| VMissing
| VNone
| VBool (b : bool)
| VInt (z : Z)
| VStr (s : string)
| VList (l : list value)
| VDict (d : gmap pykey value)
| VObj (attrs : gmap string value)
| VExc (cls : string) (msg : value)
| VResult (cls : result_class) (valid_data errors invalid_data : value).

(** Outcome of a call: normal return or raised exception. *)
Inductive res (A : Type) :=
| Ok (a : A)
| Raise (e : value).
Arguments Ok {A} a.
Arguments Raise {A} e.

#[global] Instance res_ret : MRet res := fun A a => Ok a.
#[global] Instance res_bind : MBind res := fun A B f m =>
  match m with
  | Ok a => f a
  | Raise e => Raise e
  end.

Definition returns {A} (r : res A) : bool :=
  match r with Ok _ => true | Raise _ => false end.

(** [x is missing] and [x is None]. *)
Definition is_missing (v : value) : bool :=
  match v with VMissing => true | _ => false end.

Definition is_None (v : value) : bool :=
  match v with VNone => true | _ => false end.

(** Python truthiness, as used by [not errors], [if schema], [if errors]. *)
Definition truthy (v : value) : bool :=
  match v with
  | VNone => false
  | VBool b => b
  | VInt z => negb (z =? 0)%Z
  | VStr s => negb (String.eqb s EmptyString)
  | VList l => negb (Nat.eqb (length l) 0)
  | VDict d => negb (Nat.eqb (size d) 0)
  | _ => true
  end.

Definition no_processing (v : value) : res value := Ok v.

(** The exception classes the engine names. *)
Definition ValidationError : string := "ValidationError".
Definition ValueError : string := "ValueError".
Definition TypeError : string := "TypeError".
Definition AttributeError : string := "AttributeError".
Definition KeyError : string := "KeyError".
Definition NotImplementedError : string := "NotImplementedError".



(** The objects of the built-in types [NoneType], [bool], [int], [str],
    [list] and [dict]: whether they are hashable and what [bool] makes of
    them is fixed by the language.  Those of the first four types are
    hashable, and can be the keys of a [dict]. *)
Definition is_builtin_hashable (v : value) : bool :=
  match v with
  | VNone | VBool _ | VInt _ | VStr _ => true
  | _ => false
  end.

Definition is_builtin_data (v : value) : bool :=
  match v with
  | VList _ | VDict _ => true
  | _ => is_builtin_hashable v
  end.

(** *** Ordered dictionaries

    A Python [dict] iterated by the engine, in insertion order:
    [d[k] = v] replaces the value of an existing key in place and appends
    a new key at the end. *)
Section odict.
Context {A : Type}.

Fixpoint odict_get (d : list (string * A)) (k : string) : option A :=
    match d with
    | [] => None
    | (k', a) :: d' => if String.eqb k' k then Some a else odict_get d' k
    end.

Fixpoint odict_set (d : list (string * A)) (k : string) (a : A)
    : list (string * A) :=
    match d with
    | [] => [(k, a)]
    | (k', a') :: d' =>
        if String.eqb k' k then (k', a) :: d' else (k', a') :: odict_set d' k a
    end.

Definition odict_keys (d : list (string * A)) : list string := d.*1.
Definition odict_values (d : list (string * A)) : list A := d.*2.

(** [d.update(other)] *)
Definition odict_update (d other : list (string * A)) : list (string * A) :=
    foldl (fun acc kv => odict_set acc kv.1 kv.2) d other.
End odict.

(** *** Results

    Modelled from the spec: the classes [CatalystResult], [DumpResult] and
    [LoadResult] that [catalyst.py] imports are not in [utils.py], which
    only holds an earlier [LoadResult]; a result is the record
    [(valid_data, errors, invalid_data)] and [is_valid] is [not errors],
    as in that [LoadResult]. *)
Definition valid_data (r : value) : value :=
  match r with VResult _ v _ _ => v | _ => VNone end.
Definition errors (r : value) : value :=
  match r with VResult _ _ e _ => e | _ => VNone end.
Definition invalid_data (r : value) : value :=
  match r with VResult _ _ _ i => i | _ => VNone end.
Definition is_valid (r : value) : bool := negb (truthy (errors r)).

Definition is_CatalystResult (v : value) : bool :=
  match v with VResult _ _ _ _ => true | _ => false end.

(** Modelled from the spec: [exceptions.py], which defines
    [ValidationError], is not among the sources; the exception carries the
    object it was built from as its payload [msg], as [_process_one] reads
    it.  [is_ValidationError e] is [isinstance(e, ValidationError)]. *)
Definition is_ValidationError (e : value) : bool :=
  match e with VExc cls _ => String.eqb cls ValidationError | _ => false end.
Definition msg (e : value) : value :=
  match e with VExc _ m => m | _ => VNone end.

(** *** OptionBox

    Modelled from the spec: the class [OptionBox] is not in [utils.py];
    [get(option=override)] returns the override unless it is unset
    ([None]), and the stored option otherwise. *)
Definition OptionBox_get {A} (stored : A) (override : option A) : A :=
  match override with
  | Some a => a
  | None => stored
  end.

(** *** Getters

    Modelled from the spec: [assign_attr_or_item_getter] and
    [assign_item_getter] are not in [utils.py]; the getter they assign
    fetches the named entry of the data and substitutes the default when
    the entry is absent.  Dumping reads a mapping by key and any other
    object by attribute ([get_attr_or_item]); loading reads by mapping
    key only. *)
Definition getter : Type := value → pykey → value → value.

Definition get_item : getter := fun mapping key dflt =>
  match mapping with
  | VDict d => default dflt (d !! key)
  | _ => dflt
  end.

Definition get_attr_or_item : getter := fun obj name dflt =>
  match obj with
  | VDict d => default dflt (d !! name)
  | VObj attrs =>
      match name with
      | KStr s => default dflt (attrs !! s)
      | _ => dflt
      end
  | _ => dflt
  end.

Definition assign_attr_or_item_getter (data : value) : getter :=
  get_attr_or_item.
Definition assign_item_getter (data : value) : getter := get_item.

(** *** ErrorMessageMixin *)
Definition unknown_error : string := "Unknown error.".

(** [collect_error_messages]: the class-level tables, walked from the most
    general class to the most specific one, then the per-instance table. *)
Definition collect_error_messages
    (mro_messages : list (gmap string string))
    (error_messages : option (gmap string string)) : gmap string string :=
  let messages := foldl (fun acc m => m ∪ acc) ∅ mro_messages in
  default ∅ error_messages ∪ messages.

(** The exception object that [error] builds:
    [error_class(self.error_messages.get(error_key, self.unknown_error))]. *)
Definition make_error (error_messages : gmap string string)
    (error_key : string) (error_class : option string) : value :=
  VExc (default ValidationError error_class)
       (VStr (default unknown_error (error_messages !! error_key))).

(** *** [snake_to_camel]

    Strings are taken to be ASCII: [str.title] upper-cases a letter that
    does not follow a letter and lower-cases a letter that does;
    [replace('_', '')] drops every underscore; the first character of what
    is left is lower-cased. *)
Definition is_upper (c : Ascii.ascii) : bool :=
  (65 <=? Ascii.nat_of_ascii c) && (Ascii.nat_of_ascii c <=? 90).

Definition is_lower (c : Ascii.ascii) : bool :=
  (97 <=? Ascii.nat_of_ascii c) && (Ascii.nat_of_ascii c <=? 122).

Definition to_upper (c : Ascii.ascii) : Ascii.ascii :=
  if is_lower c then Ascii.ascii_of_nat (Ascii.nat_of_ascii c - 32) else c.

Definition to_lower (c : Ascii.ascii) : Ascii.ascii :=
  if is_upper c then Ascii.ascii_of_nat (Ascii.nat_of_ascii c + 32) else c.

Definition underscore : Ascii.ascii := Ascii.ascii_of_nat 95.

Fixpoint title_from (previous_is_cased : bool) (s : string) : string :=
  match s with
  | EmptyString => EmptyString
  | String c s' =>
      if is_lower c then
        String (if previous_is_cased then c else to_upper c) (title_from true s')
      else if is_upper c then
        String (if previous_is_cased then to_lower c else c) (title_from true s')
      else String c (title_from false s')
  end.

Definition title (s : string) : string := title_from false s.

Fixpoint remove_underscores (s : string) : string :=
  match s with
  | EmptyString => EmptyString
  | String c s' =>
      if Ascii.eqb c underscore then remove_underscores s'
      else String c (remove_underscores s')
  end.

Definition snake_to_camel (snake : string) : string :=
  let camel := remove_underscores (title snake) in
  match camel with
  | EmptyString => camel
  | String c rest => String (to_lower c) rest
  end.

(** For the statements on [snake_to_camel]: the number of underscores of a
    string, a word of lower-case letters, its capitalised form, and the
    snake-case and camel-case names made of a first word and more words. *)
Fixpoint count_underscores (s : string) : nat :=
  match s with
  | EmptyString => 0
  | String c s' =>
      (if Ascii.eqb c underscore then 1 else 0) + count_underscores s'
  end.

Fixpoint lower_word (s : string) : bool :=
  match s with
  | EmptyString => true
  | String c s' => is_lower c && lower_word s'
  end.

Definition capitalize (s : string) : string :=
  match s with
  | EmptyString => EmptyString
  | String c s' => String (to_upper c) s'
  end.

Fixpoint snake_name (word : string) (words : list string) : string :=
  match words with
  | [] => word
  | w :: ws => word +:+ String underscore (snake_name w ws)
  end.

Fixpoint camel_tail (words : list string) : string :=
  match words with
  | [] => EmptyString
  | w :: ws => capitalize w +:+ camel_tail ws
  end.

(** A string of ASCII characters. *)
Fixpoint ascii_string (s : string) : bool :=
  match s with
  | EmptyString => true
  | String c s' => (Ascii.nat_of_ascii c <? 128) && ascii_string s'
  end.

End Utils.

(* ===================================================================== *)
(** ** catalyst/fields.py *)
(* ===================================================================== *)

Module Fields.
Import Utils.

(** A formatter, parser or validator is user code: it returns or raises. *)
Definition FormatterType : Type := value → res value.
Definition ParserType : Type := value → res value.
Definition ValidatorType : Type := value → res value.

(** The option [dump_default] / [load_default]: a plain object ([missing]
    when the field has no default) or a zero-argument callable. *)
Inductive default_option :=
| Plain (v : value)
| Callable (f : unit → res value).

(** [Field.Options] *)
Module Options.
Record t := mk {
  formatter : FormatterType;
  format_none : bool;
  dump_required : bool;
  dump_default : default_option;
  no_dump : bool;
  parser : ParserType;
  parse_none : bool;
  load_required : bool;
  load_default : default_option;
  no_load : bool;
  validators : list ValidatorType;
  allow_none : bool;
}.
End Options.

(** The class-level defaults of [Field.Options]. *)
Definition Field_Options : Options.t :=
  {| Options.formatter := no_processing;
     Options.format_none := false;
     Options.dump_required := true;
     Options.dump_default := Plain VMissing;
     Options.no_dump := false;
     Options.parser := no_processing;
     Options.parse_none := false;
     Options.load_required := false;
     Options.load_default := Plain VMissing;
     Options.no_load := false;
     Options.validators := [];
     Options.allow_none := true |}.

Definition default_error_messages : gmap string string :=
  {[ "required" := "Missing data for required field.";
     "none" := "Field may not be None." ]}.

Record Field := mkField {
  name : option string;
  key : option string;
  opts : Options.t;
  error_messages : gmap string string;
}.

(** [Field.__init__] for a field class whose [Options] are [cls_opts] and
    whose error-message tables along the MRO are [mro_messages].  An
    argument left at [None] keeps the class-level option; [dump_default] and
    [load_default] are unset when they are [missing]. *)
Definition __init__ (cls_opts : Options.t)
    (mro_messages : list (gmap string string))
    (name key : option string)
    (formatter : option FormatterType) (format_none dump_required : option bool)
    (dump_default : default_option) (no_dump : option bool)
    (parser : option ParserType) (parse_none load_required : option bool)
    (load_default : default_option) (no_load : option bool)
    (validators : option (list ValidatorType)) (allow_none : option bool)
    (error_messages : option (gmap string string)) : Field :=
  let is_set d := match d with Plain VMissing => false | _ => true end in
  {| name := name;
     key := key;
     opts :=
       {| Options.formatter := OptionBox_get (Options.formatter cls_opts) formatter;
          Options.format_none := OptionBox_get (Options.format_none cls_opts) format_none;
          Options.dump_required :=
            OptionBox_get (Options.dump_required cls_opts) dump_required;
          Options.dump_default :=
            if is_set dump_default then dump_default
            else Options.dump_default cls_opts;
          Options.no_dump := OptionBox_get (Options.no_dump cls_opts) no_dump;
          Options.parser := OptionBox_get (Options.parser cls_opts) parser;
          Options.parse_none := OptionBox_get (Options.parse_none cls_opts) parse_none;
          Options.load_required :=
            OptionBox_get (Options.load_required cls_opts) load_required;
          Options.load_default :=
            if is_set load_default then load_default
            else Options.load_default cls_opts;
          Options.no_load := OptionBox_get (Options.no_load cls_opts) no_load;
          (* ensure_validators: the class-level [None] is the empty list *)
          Options.validators := OptionBox_get (Options.validators cls_opts) validators;
          Options.allow_none := OptionBox_get (Options.allow_none cls_opts) allow_none |};
     error_messages := collect_error_messages mro_messages error_messages |}.

(** [Field()] : the base class with every argument left out. *)
Definition Field_default : Field :=
  __init__ Field_Options [default_error_messages] None None None None None
    (Plain VMissing) None None None None (Plain VMissing) None None None None.

(** [set_formatter] and [set_parser]; the argument is callable by its type,
    so the [TypeError] branch is not reachable. *)
Definition set_formatter (self : Field) (formatter : FormatterType) : Field :=
  let o := opts self in
  {| name := name self;
     key := key self;
     opts :=
       {| Options.formatter := formatter;
          Options.format_none := Options.format_none o;
          Options.dump_required := Options.dump_required o;
          Options.dump_default := Options.dump_default o;
          Options.no_dump := Options.no_dump o;
          Options.parser := Options.parser o;
          Options.parse_none := Options.parse_none o;
          Options.load_required := Options.load_required o;
          Options.load_default := Options.load_default o;
          Options.no_load := Options.no_load o;
          Options.validators := Options.validators o;
          Options.allow_none := Options.allow_none o |};
     error_messages := error_messages self |}.

Definition set_parser (self : Field) (parser : ParserType) : Field :=
  let o := opts self in
  {| name := name self;
     key := key self;
     opts :=
       {| Options.formatter := Options.formatter o;
          Options.format_none := Options.format_none o;
          Options.dump_required := Options.dump_required o;
          Options.dump_default := Options.dump_default o;
          Options.no_dump := Options.no_dump o;
          Options.parser := parser;
          Options.parse_none := Options.parse_none o;
          Options.load_required := Options.load_required o;
          Options.load_default := Options.load_default o;
          Options.no_load := Options.no_load o;
          Options.validators := Options.validators o;
          Options.allow_none := Options.allow_none o |};
     error_messages := error_messages self |}.

(** [ErrorMessageMixin.error]: always raises. *)
Definition error {A} (self : Field) (error_key : string) : res A :=
  Raise (make_error (error_messages self) error_key None).

(** Modelled from the spec: [get_error], which [_process_one] calls for a
    required field that is missing, is not in [utils.py]; it returns the
    error of the given kind, the object that [error] raises. *)
Definition get_error (self : Field) (error_key : string) : value :=
  make_error (error_messages self) error_key None.

(** [for validator in self.opts.validators: validator(value)]: the value a
    validator returns is dropped, its exception propagates. *)
Fixpoint run_validators (vs : list ValidatorType) (v : value) : res unit :=
  match vs with
  | [] => Ok ()
  | validator :: vs' => _ ← validator v; run_validators vs' v
  end.

Definition validate (self : Field) (v : value) : res value :=
  if is_None v && Options.allow_none (opts self) then Ok VNone
  else
    _ ← (if is_None v then error self "none" else Ok ());
    _ ← run_validators (Options.validators (opts self)) v;
    Ok v.

Definition format (self : Field) (v : value) : res value :=
  if is_None v && negb (Options.format_none (opts self)) then Ok VNone
  else
    v ← Options.formatter (opts self) v;
    Ok v.

Definition dump (self : Field) (v : value) : res value :=
  _ ← validate self v;
  v ← format self v;
  Ok v.

Definition parse (self : Field) (v : value) : res value :=
  if is_None v && negb (Options.parse_none (opts self)) then Ok VNone
  else
    v ← Options.parser (opts self) v;
    Ok v.

Definition load (self : Field) (v : value) : res value :=
  v ← parse self v;
  _ ← validate self v;
  Ok v.

(** The properties [dump_default] and [load_default]: a callable default is
    called on every access. *)
Definition resolve_default (d : default_option) : res value :=
  match d with
  | Plain v => Ok v
  | Callable f => f ()
  end.

Definition dump_default (self : Field) : res value :=
  resolve_default (Options.dump_default (opts self)).

Definition load_default (self : Field) : res value :=
  resolve_default (Options.load_default (opts self)).

(** [add_validator]: the validator goes to the end of the list. *)
Definition add_validator (self : Field) (validator : ValidatorType) : Field :=
  let o := opts self in
  {| name := name self;
     key := key self;
     opts :=
       {| Options.formatter := Options.formatter o;
          Options.format_none := Options.format_none o;
          Options.dump_required := Options.dump_required o;
          Options.dump_default := Options.dump_default o;
          Options.no_dump := Options.no_dump o;
          Options.parser := Options.parser o;
          Options.parse_none := Options.parse_none o;
          Options.load_required := Options.load_required o;
          Options.load_default := Options.load_default o;
          Options.no_load := Options.no_load o;
          Options.validators := Options.validators o ++ [validator];
          Options.allow_none := Options.allow_none o |};
     error_messages := error_messages self |}.

(** *** [ListField]

    [[f(item) for item in value]]: the items are transformed from left to
    right and the first exception ends the comprehension.  The value is
    taken to be a list; the other iterables (a [str], a [dict]) are not
    modelled, and the statements on [ListField] are on lists. *)
Fixpoint comprehension (f : value → res value) (items : list value)
  : res (list value) :=
  match items with
  | [] => Ok []
  | item :: items' =>
      v ← f item;
      vs ← comprehension f items';
      Ok (v :: vs)
  end.

Definition over_items (f : value → res value) (v : value) : res value :=
  match v with
  | VList items => vs ← comprehension f items; Ok (VList vs)
  | _ => Raise (VExc TypeError (VStr "object is not iterable"))
  end.

Definition ListField_Options (item_field : Field) : Options.t :=
  {| Options.formatter := over_items (dump item_field);
     Options.format_none := false;
     Options.dump_required := true;
     Options.dump_default := Plain VMissing;
     Options.no_dump := false;
     Options.parser := over_items (load item_field);
     Options.parse_none := false;
     Options.load_required := false;
     Options.load_default := Plain VMissing;
     Options.no_load := false;
     Options.validators := [];
     Options.allow_none := true |}.

(** [ListField(item_field, name=..., key=..., validators=...)] *)
Definition ListField (item_field : Field) (name key : option string)
    (validators : option (list ValidatorType)) : Field :=
  __init__ (ListField_Options item_field) [default_error_messages]
    name key None None None (Plain VMissing) None None None None
    (Plain VMissing) None validators None None.

(** *** [BoolField]

    [value_map] sends a parsed object to the raw tokens that stand for it;
    the tokens are taken to be strings.  [reverse_value_map] is built from
    it in [__init__], a later entry replacing an earlier one. *)
Definition true_tokens : list string := ["1"; "y"; "yes"; "true"; "True"].
Definition false_tokens : list string := ["0"; "n"; "no"; "false"; "False"].

Definition BoolField_value_map : list (value * list string) :=
  [(VBool true, true_tokens); (VBool false, false_tokens)].

Definition reverse_value_map (value_map : list (value * list string))
  : gmap string value :=
  foldl (fun m entry => foldl (fun m raw => <[raw := entry.1]> m) m entry.2)
        ∅ value_map.

(** [BoolField.Options.parser], which is the formatter as well: a hashable
    value is looked up in [reverse_value_map] (only a string can be found
    there), then [bool] is applied.  On the objects of the built-in types
    neither step raises; the hashing and the truth value of another object
    are code of its class, which is not modelled: the statements on
    [BoolField] are on objects of the built-in types. *)
Definition BoolField_parser (reverse_value_map : gmap string value) (v : value)
  : res value :=
  let v := match v with
           | VStr s => default v (reverse_value_map !! s)
           | _ => v
           end in
  Ok (VBool (truthy v)).

Definition BoolField_Options (value_map : list (value * list string)) : Options.t :=
  {| Options.formatter := BoolField_parser (reverse_value_map value_map);
     Options.format_none := false;
     Options.dump_required := true;
     Options.dump_default := Plain VMissing;
     Options.no_dump := false;
     Options.parser := BoolField_parser (reverse_value_map value_map);
     Options.parse_none := false;
     Options.load_required := false;
     Options.load_default := Plain VMissing;
     Options.no_load := false;
     Options.validators := [];
     Options.allow_none := true |}.

(** [BoolField(value_map=..., name=..., key=..., validators=..., allow_none=...)] *)
Definition BoolField (value_map : option (list (value * list string)))
    (name key : option string) (validators : option (list ValidatorType))
    (allow_none : option bool) : Field :=
  __init__ (BoolField_Options (OptionBox_get BoolField_value_map value_map))
    [default_error_messages]
    name key None None None (Plain VMissing) None None None None
    (Plain VMissing) None validators allow_none None.

End Fields.

(* ===================================================================== *)
(** ** catalyst/catalyst.py *)
(* ===================================================================== *)

Module Catalyst.
Import Utils.

(** [FieldDict = Dict[str, Field]], iterated in insertion order. *)
Definition FieldDict : Type := list (string * Fields.Field).

(** [BaseCatalyst.Options]; the option [schema] only feeds [__repr__]. *)
Module Options.
Record t := mk {
  dump_method : string;
  load_method : string;
  raise_error : bool;
  all_errors : bool;
}.
End Options.

Definition BaseCatalyst_Options : Options.t :=
  {| Options.dump_method := "format";
     Options.load_method := "load";
     Options.raise_error := false;
     Options.all_errors := true |}.

(** A side-effect method such as [pre_dump], with its attribute
    [error_key] when it has one. *)
Record method := mkMethod {
  call : value → res value;
  error_key : option string;
}.

(** A schema instance.  [side_effects] holds the methods that
    [getattr(self, name)] finds for the names of side effects. *)
Record BaseCatalyst := mkCatalyst {
  _field_dict : FieldDict;
  _dump_field_dict : FieldDict;
  _load_field_dict : FieldDict;
  opts : Options.t;
  side_effects : gmap string method;
  _assign_dump_getter : value → getter;
  _assign_load_getter : value → getter;
}.

(** The eight methods [pre_dump] ... [post_load_many] of [BaseCatalyst]:
    each returns its data and carries its own name as [error_key]. *)
Definition return_data (n : string) : method :=
  {| call := fun data => Ok data; error_key := Some n |}.

Definition side_effect_names : list string :=
  ["pre_dump"; "post_dump"; "pre_load"; "post_load";
   "pre_dump_many"; "post_dump_many"; "pre_load_many"; "post_load_many"].

Definition BaseCatalyst_side_effects : gmap string method :=
  list_to_map ((fun n => (n, return_data n)) <$> side_effect_names).

(** [_side_effect]: [getattr(self, name, no_processing)], then the call
    inside [try]; as in the loop of [_process_one], the [Raise] branch is
    the [except Exception] clause. *)
Definition _side_effect (self : BaseCatalyst) (name : string) (data : value)
  : value * value * value :=
  let handle :=
    default {| call := no_processing; error_key := None |}
            (side_effects self !! name) in
  match call handle data with
  | Ok valid_data => (valid_data, VNone, VNone)
  | Raise e =>
      let error_key := default name (error_key handle) in
      (VNone, VDict {[ KStr error_key := e ]}, data)
  end.

(** *** [_process_one] *)

(** The locals that [_process_one] selects from the direction [name]. *)
Record direction := mkDirection {
  source_attr : Fields.Field → option string;
  target_attr : Fields.Field → option string;
  field_dict : FieldDict;
  assign_getter : value → getter;
  method_name : string;
  required_attr : Fields.Field → bool;
  default_attr : Fields.Field → res value;
}.

Definition of_attr (o : option string) : pykey :=
  match o with
  | Some s => KStr s
  | None => KNone
  end.

(** [getattr(field, method)(raw_value)]; an unknown attribute raises. *)
Definition call_method (method : string) (field : Fields.Field) (raw_value : value)
  : res value :=
  if String.eqb method "dump" then Fields.dump field raw_value
  else if String.eqb method "format" then Fields.format field raw_value
  else if String.eqb method "validate" then Fields.validate field raw_value
  else if String.eqb method "load" then Fields.load field raw_value
  else if String.eqb method "parse" then Fields.parse field raw_value
  else Raise (VExc AttributeError (VStr method)).

(** [isinstance(e, ValidationError) and isinstance(e.msg, CatalystResult)] *)
Definition carries_result (e : value) : bool :=
  is_ValidationError e && is_CatalystResult (msg e).

(** The three mappings [valid_data], [errors], [invalid_data] of a run. *)
Definition mappings : Type :=
  gmap pykey value * gmap pykey value * gmap pykey value.

(** One iteration of [for field in field_dict.values()].  The boolean is
    true when the iteration ends in [break].  The [Raise] branch is the
    [except Exception] clause: what the method of a field raises is taken
    to be an instance of [Exception].  An exit ([SystemExit],
    [KeyboardInterrupt], [GeneratorExit]) passes through that clause; the
    statement that nothing but a default's exception leaves [load] has
    [load_raises_Exception_only] as its hypothesis. *)
Definition process_field (d : direction) (get_value : getter) (data : value)
    (all_errors : bool) (field : Fields.Field) (acc : mappings)
  : res (mappings * bool) :=
  let '(valid_data, errors, invalid_data) := acc in
  let required := required_attr d field in
  default ← default_attr d field;
  let source := of_attr (source_attr d field) in
  let target := of_attr (target_attr d field) in
  let raw_value := get_value data source default in
  (* try: *)
  if is_missing raw_value then
    if required then
      let errors := <[source := Fields.get_error field "required"]> errors in
      Ok ((valid_data, errors, invalid_data), negb all_errors)
    else Ok (acc, false)
  else
    match call_method (method_name d) field raw_value with
    | Ok v => Ok ((<[target := v]> valid_data, errors, invalid_data), false)
    | Raise e =>
        (* except Exception as e: *)
        let acc' :=
          if carries_result e then
            (<[target := Utils.valid_data (msg e)]> valid_data,
             <[source := Utils.errors (msg e)]> errors,
             <[source := Utils.invalid_data (msg e)]> invalid_data)
          else
            (valid_data, <[source := e]> errors, <[source := raw_value]> invalid_data)
        in
        Ok (acc', negb all_errors)
    end.

Fixpoint process_fields (d : direction) (get_value : getter) (data : value)
    (all_errors : bool) (fields : list Fields.Field) (acc : mappings)
  : res mappings :=
  match fields with
  | [] => Ok acc
  | field :: fields' =>
      '(acc', break) ← process_field d get_value data all_errors field acc;
      if break : bool then Ok acc'
      else process_fields d get_value data all_errors fields' acc'
  end.

(** The choice that opens [_process_one]: the locals for ['dump'], the
    locals for ['load'], and the [ValueError] for any other name. *)
Definition dump_direction (self : BaseCatalyst) : direction :=
  {| source_attr := Fields.name;
     target_attr := Fields.key;
     field_dict := _dump_field_dict self;
     assign_getter := _assign_dump_getter self;
     method_name := Options.dump_method (opts self);
     required_attr := fun field => Fields.Options.dump_required (Fields.opts field);
     default_attr := Fields.dump_default |}.

Definition load_direction (self : BaseCatalyst) : direction :=
  {| source_attr := Fields.key;
     target_attr := Fields.name;
     field_dict := _load_field_dict self;
     assign_getter := _assign_load_getter self;
     method_name := Options.load_method (opts self);
     required_attr := fun field => Fields.Options.load_required (Fields.opts field);
     default_attr := Fields.load_default |}.

Definition select_direction (self : BaseCatalyst) (name : string) : res direction :=
  if String.eqb name "dump" then Ok (dump_direction self)
  else if String.eqb name "load" then Ok (load_direction self)
  else Raise (VExc ValueError (VStr "Argument `name` must be 'dump' or 'load'.")).

Definition _process_one (self : BaseCatalyst) (name : string) (data : value)
    (all_errors : bool) : res (value * value * value) :=
  d ← select_direction self name;
  let get_value := assign_getter d data in
  '(valid_data, errors, invalid_data) ←
    process_fields d get_value data all_errors (odict_values (field_dict d)) (∅, ∅, ∅);
  Ok (VDict valid_data, VDict errors, VDict invalid_data).

(** What the loop meets at a field, for the statements below: the key it
    reads, the key it writes, and whether the iteration records an error
    ([field_fails]) or goes through without one ([field_passes]).  Neither
    holds when the default of the field raises. *)
Definition source (d : direction) (field : Fields.Field) : pykey :=
  of_attr (source_attr d field).

Definition target (d : direction) (field : Fields.Field) : pykey :=
  of_attr (target_attr d field).

Definition field_fails (d : direction) (get_value : getter) (data : value)
    (field : Fields.Field) : bool :=
  match default_attr d field with
  | Ok default =>
      let raw_value := get_value data (source d field) default in
      if is_missing raw_value then required_attr d field
      else negb (returns (call_method (method_name d) field raw_value))
  | Raise _ => false
  end.

Definition field_passes (d : direction) (get_value : getter) (data : value)
    (field : Fields.Field) : bool :=
  match default_attr d field with
  | Ok default =>
      let raw_value := get_value data (source d field) default in
      if is_missing raw_value then negb (required_attr d field)
      else returns (call_method (method_name d) field raw_value)
  | Raise _ => false
  end.

(** *** [_process_flow] and [_process_many]

    [_process_flow] runs [handle], which is [_process_one] or
    [_process_many]; [_process_many] runs [_process_flow] with [many] false
    on every item.  [process_flow_with] is [_process_flow] after the choice
    of [method_name] and [handle]. *)
Definition process_flow_with
    (handle : string → value → bool → res (value * value * value))
    (self : BaseCatalyst) (name method_name : string) (data : value)
    (raise_error all_errors : option bool) : res value :=
  ResultClass ←
    (if String.eqb name "dump" then Ok DumpResult
     else if String.eqb name "load" then Ok LoadResult
     else Raise (VExc ValueError (VStr "Argument `name` must be `dump` or `load`.")));
  let all_errors := OptionBox_get (Options.all_errors (opts self)) all_errors in
  let raise_error := OptionBox_get (Options.raise_error (opts self)) raise_error in
  let '(valid_data, errors, invalid_data) :=
    _side_effect self ("pre_" +:+ method_name) data in
  '(valid_data, errors, invalid_data) ←
    (if negb (truthy errors) then handle name valid_data all_errors
     else Ok (valid_data, errors, invalid_data));
  let '(valid_data, errors, invalid_data) :=
    if negb (truthy errors) then
      _side_effect self ("post_" +:+ method_name) valid_data
    else (valid_data, errors, invalid_data) in
  let result := VResult ResultClass valid_data errors invalid_data in
  if truthy errors && raise_error then Raise (VExc ValidationError result)
  else Ok result.

(** The body of [for i, item in enumerate(data)], from index [i] on. *)
Fixpoint process_items (flow : value → res value) (all_errors : bool)
    (i : nat) (items : list value)
    (acc : list value * gmap pykey value * gmap pykey value)
  : res (list value * gmap pykey value * gmap pykey value) :=
  match items with
  | [] => Ok acc
  | item :: items' =>
      let '(valid_data, errors, invalid_data) := acc in
      result ← flow item;
      let valid_data := valid_data ++ [Utils.valid_data result] in
      if negb (is_valid result) then
        let errors := <[KInt i := Utils.errors result]> errors in
        let invalid_data := <[KInt i := Utils.invalid_data result]> invalid_data in
        if negb all_errors then Ok (valid_data, errors, invalid_data)
        else process_items flow all_errors (S i) items' (valid_data, errors, invalid_data)
      else process_items flow all_errors (S i) items' (valid_data, errors, invalid_data)
  end.

(** [data] is a [Sequence], here a list.  The other iterables (a [str], a
    [dict], whose order of iteration a [gmap] does not keep) are not
    modelled: the statements on [_process_many] are on lists. *)
Definition _process_many (self : BaseCatalyst) (name : string) (data : value)
    (all_errors : bool) : res (value * value * value) :=
  match data with
  | VList items =>
      '(valid_data, errors, invalid_data) ←
        process_items
          (fun item =>
             process_flow_with (_process_one self) self name name item
               (Some false) (Some all_errors))
          all_errors 0 items ([], ∅, ∅);
      Ok (VList valid_data, VDict errors, VDict invalid_data)
  | _ => Raise (VExc TypeError (VStr "object is not iterable"))
  end.

Definition _process_flow (self : BaseCatalyst) (name : string) (many : bool)
    (data : value) (raise_error all_errors : option bool) : res value :=
  if many then
    process_flow_with (_process_many self) self name (name +:+ "_many") data
      raise_error all_errors
  else
    process_flow_with (_process_one self) self name name data
      raise_error all_errors.

Definition dump (self : BaseCatalyst) (data : value)
    (raise_error all_errors : option bool) : res value :=
  _process_flow self "dump" false data raise_error all_errors.

Definition load (self : BaseCatalyst) (data : value)
    (raise_error all_errors : option bool) : res value :=
  _process_flow self "load" false data raise_error all_errors.

Definition dump_many (self : BaseCatalyst) (data : value)
    (raise_error all_errors : option bool) : res value :=
  _process_flow self "dump" true data raise_error all_errors.

Definition load_many (self : BaseCatalyst) (data : value)
    (raise_error all_errors : option bool) : res value :=
  _process_flow self "load" true data raise_error all_errors.

(** For the statements on batches: what an indexed mapping holds at [k]
    after a collect-all run that started at index [i] with the mapping [m]
    and met [results]. *)
Definition indexed (part : value → value) (i : nat) (results : list value)
    (m : gmap pykey value) (k : pykey) : option value :=
  match k with
  | KInt j =>
      if decide (i ≤ j) then
        match results !! (j - i) with
        | Some r => if is_valid r then m !! k else Some (part r)
        | None => m !! k
        end
      else m !! k
  | _ => m !! k
  end.

(** A schema whose class overrides neither a side-effect method nor a
    getter of [BaseCatalyst]. *)
Definition inherits_BaseCatalyst (self : BaseCatalyst) : Prop :=
  side_effects self = BaseCatalyst_side_effects ∧
  _assign_dump_getter self = assign_attr_or_item_getter ∧
  _assign_load_getter self = assign_item_getter.


(** *** [fields.NestedField]

    The field that wraps a schema: its formatter and parser run the
    schema's [dump] and [load] with [raise_error] true and keep the valid
    data.  It lives in [fields.py]; it is stated here, after the schema
    operations it calls. *)
Definition NestedField_Options (catalyst : BaseCatalyst) : Fields.Options.t :=
  {| Fields.Options.formatter := fun v =>
       r ← dump catalyst v (Some true) None; Ok (Utils.valid_data r);
     Fields.Options.format_none := false;
     Fields.Options.dump_required := true;
     Fields.Options.dump_default := Fields.Plain VMissing;
     Fields.Options.no_dump := false;
     Fields.Options.parser := fun v =>
       r ← load catalyst v (Some true) None; Ok (Utils.valid_data r);
     Fields.Options.parse_none := false;
     Fields.Options.load_required := false;
     Fields.Options.load_default := Fields.Plain VMissing;
     Fields.Options.no_load := false;
     Fields.Options.validators := [];
     Fields.Options.allow_none := true |}.

Definition NestedField (catalyst : BaseCatalyst) (name key : option string)
  : Fields.Field :=
  Fields.__init__ (NestedField_Options catalyst) [Fields.default_error_messages]
    name key None None None (Fields.Plain VMissing) None None None None
    (Fields.Plain VMissing) None None None None.

(** *** Construction

    A schema class: the fields that the metaclass bound to [_field_dict],
    the class-level [Options], and the class attributes an instance
    inherits. *)
Record CatalystClass := mkClass {
  cls_field_dict : FieldDict;
  cls_Options : Options.t;
  cls_side_effects : gmap string method;
  cls_assign_dump_getter : value → getter;
  cls_assign_load_getter : value → getter;
  _format_field_key : string → string;
  _format_field_name : string → string;
}.

(** [class Catalyst(BaseCatalyst)] without fields, with the attributes of
    [BaseCatalyst]. *)
Definition Catalyst_class : CatalystClass :=
  {| cls_field_dict := [];
     cls_Options := BaseCatalyst_Options;
     cls_side_effects := BaseCatalyst_side_effects;
     cls_assign_dump_getter := assign_attr_or_item_getter;
     cls_assign_load_getter := assign_item_getter;
     _format_field_key := fun key => key;
     _format_field_name := fun name => name |}.

(** [fields[key]] *)
Definition getitem (fields : FieldDict) (key : string) : res Fields.Field :=
  match odict_get fields key with
  | Some field => Ok field
  | None => Raise (VExc KeyError (VStr key))
  end.

Fixpoint copy_fields_loop (fields : FieldDict) (keys : list string)
    (is_copying : string → res bool) (new_fields : FieldDict) : res FieldDict :=
  match keys with
  | [] => Ok new_fields
  | key :: keys' =>
      copying ← is_copying key;
      if copying : bool then
        field ← getitem fields key;
        copy_fields_loop fields keys' is_copying (odict_set new_fields key field)
      else copy_fields_loop fields keys' is_copying new_fields
  end.

Definition _copy_fields (fields : FieldDict) (keys : list string)
    (is_copying : string → res bool) : res FieldDict :=
  copy_fields_loop fields keys is_copying [].

Definition dump_methods : list string := ["dump"; "format"; "validate"].
Definition load_methods : list string := ["load"; "parse"; "validate"].

(** The value of an attribute that [_set_fields] inspects: a schema class,
    a schema instance, a field, or anything else. *)
Inductive attribute :=
| AttrCatalystMeta (cls : CatalystClass)
| AttrBaseCatalyst (catalyst : BaseCatalyst)
| AttrField (field : Fields.Field)
| AttrOther (v : value).

(** [self.Options(...)]: an argument left at [None] keeps the class-level
    option. *)
Definition make_Options (cls : CatalystClass)
    (raise_error all_errors : option bool) (dump_method load_method : option string)
  : Options.t :=
  {| Options.dump_method :=
       OptionBox_get (Options.dump_method (cls_Options cls)) dump_method;
     Options.load_method :=
       OptionBox_get (Options.load_method (cls_Options cls)) load_method;
     Options.raise_error :=
       OptionBox_get (Options.raise_error (cls_Options cls)) raise_error;
     Options.all_errors :=
       OptionBox_get (Options.all_errors (cls_Options cls)) all_errors |}.

(** The two checks that close [__init__]. *)
Definition check_methods (opts : Options.t) : res unit :=
  if negb (bool_decide (Options.dump_method opts ∈ dump_methods)) then
    Raise (VExc ValueError
      (VStr "Argument `method` must be in ('dump', 'format', 'validate')."))
  else if negb (bool_decide (Options.load_method opts ∈ load_methods)) then
    Raise (VExc ValueError
      (VStr "Argument `method` must be in ('load', 'parse', 'validate')."))
  else Ok ().

Section construction.
(** The order in which [set(self._field_dict.keys())] is iterated. *)
Variable set_order : list string → list string.

(** [__init__] from [if not fields:] to the two calls of [_copy_fields]:
    the dump registry and the load registry. *)
Definition copy_registries (self_field_dict : FieldDict)
    (fields dump_fields load_fields : option (list string))
  : res (FieldDict * FieldDict) :=
  let or_else (names : option (list string)) (other : list string) :=
    match names with
    | Some (n :: ns) => n :: ns
    | _ => other
    end in
  let fields := or_else fields (set_order (odict_keys self_field_dict)) in
  let dump_fields := or_else dump_fields fields in
  let load_fields := or_else load_fields fields in
  dump_field_dict ←
    _copy_fields self_field_dict dump_fields
      (fun k => field ← getitem self_field_dict k;
                Ok (negb (Fields.Options.no_dump (Fields.opts field))));
  load_field_dict ←
    _copy_fields self_field_dict load_fields
      (fun k => field ← getitem self_field_dict k;
                Ok (negb (Fields.Options.no_load (Fields.opts field))));
  Ok (dump_field_dict, load_field_dict).

(** [__init__] from [if not fields:] on, for an instance of [cls] whose
    [_field_dict] is [self_field_dict]. *)
Definition init_registries (cls : CatalystClass) (self_field_dict : FieldDict)
    (fields : option (list string))
    (raise_error all_errors : option bool)
    (dump_fields : option (list string)) (dump_method : option string)
    (load_fields : option (list string)) (load_method : option string)
  : res BaseCatalyst :=
  '(dump_field_dict, load_field_dict) ←
    copy_registries self_field_dict fields dump_fields load_fields;
  let opts := make_Options cls raise_error all_errors dump_method load_method in
  _ ← check_methods opts;
  Ok {| _field_dict := self_field_dict;
        _dump_field_dict := dump_field_dict;
        _load_field_dict := load_field_dict;
        opts := opts;
        side_effects := cls_side_effects cls;
        _assign_dump_getter := cls_assign_dump_getter cls;
        _assign_load_getter := cls_assign_load_getter cls |}.

(** [Catalyst._set_fields]: the loop over [attrs], then the whole method,
    which returns the new [_field_dict] of [cls_or_obj].  An attribute
    gives its field as that field is when the loop starts.  The source
    writes the name and the key into the field object: an object that is
    the value of two attributes is met, under the second, with the name
    and key that it got under the first.  The statement on the field
    stored under an attribute is therefore about a field that has both
    already or that no earlier attribute holds. *)
Fixpoint set_fields_loop (cls : CatalystClass)
    (attrs : list (string * attribute)) (fields : FieldDict) : res FieldDict :=
  match attrs with
  | [] => Ok fields
  | (attr, v) :: attrs' =>
      (* init catalyst object *)
      v ← match v with
          | AttrCatalystMeta c =>
              catalyst ←
                init_registries c (cls_field_dict c) None None None None None None None;
              Ok (AttrBaseCatalyst catalyst)
          | _ => Ok v
          end;
      (* wrap catalyst object as NestedField *)
      let v := match v with
               | AttrBaseCatalyst c => AttrField (NestedField c None None)
               | _ => v
               end in
      (* automatic generate field name or key *)
      match v with
      | AttrField field =>
          let field :=
            {| Fields.name :=
                 match Fields.name field with
                 | None => Some (_format_field_name cls attr)
                 | n => n
                 end;
               Fields.key :=
                 match Fields.key field with
                 | None => Some (_format_field_key cls attr)
                 | k => k
                 end;
               Fields.opts := Fields.opts field;
               Fields.error_messages := Fields.error_messages field |} in
          set_fields_loop cls attrs' (odict_set fields attr field)
      | _ => set_fields_loop cls attrs' fields
      end
  end.

Definition _set_fields (cls : CatalystClass) (cls_or_obj_field_dict : FieldDict)
    (attrs : list (string * attribute)) : res FieldDict :=
  set_fields_loop cls attrs (odict_update [] cls_or_obj_field_dict).

(** [if schema: self._set_fields(self, attrs)]; [schema] is the external
    object, given by the attributes that [dir(schema)] lists. *)
Definition own_field_dict (cls : CatalystClass)
    (schema : option (list (string * attribute))) : res FieldDict :=
  match schema with
  | Some attrs => _set_fields cls (cls_field_dict cls) attrs
  | None => Ok (cls_field_dict cls)
  end.

(** [Catalyst.__init__] *)
Definition __init__ (cls : CatalystClass)
    (schema : option (list (string * attribute)))
    (fields : option (list string))
    (raise_error all_errors : option bool)
    (dump_fields : option (list string)) (dump_method : option string)
    (load_fields : option (list string)) (load_method : option string)
  : res BaseCatalyst :=
  self_field_dict ← own_field_dict cls schema;
  init_registries cls self_field_dict fields raise_error all_errors
    dump_fields dump_method load_fields load_method.
End construction.

(** *** [_process_args]

    The wrapper that [_process_args] returns for [func].  [sig.bind] is
    [bind]: it returns the mapping [ba.arguments] or raises.  The call of
    [func] with [ba.args] and [ba.kwargs] is [func] on the bound arguments;
    [ba.arguments.update] takes a mapping. *)
Definition _process_args {A : Type} (self : BaseCatalyst)
    (bind : A → res (gmap pykey value))
    (func : gmap pykey value → res value)
    (name : string) (all_errors : option bool) (args : A) : res value :=
  arguments ← bind args;
  result ← _process_flow self name false (VDict arguments) (Some true) all_errors;
  arguments ←
    match Utils.valid_data result with
    | VDict valid => Ok (valid ∪ arguments)
    | _ => Raise (VExc TypeError (VStr "object is not iterable"))
    end;
  func arguments.

Definition dump_args {A : Type} (self : BaseCatalyst)
    (bind : A → res (gmap pykey value)) (func : gmap pykey value → res value)
    (all_errors : option bool) : A → res value :=
  _process_args self bind func "dump" all_errors.

Definition load_args {A : Type} (self : BaseCatalyst)
    (bind : A → res (gmap pykey value)) (func : gmap pykey value → res value)
    (all_errors : option bool) : A → res value :=
  _process_args self bind func "load" all_errors.

(** For the statements on [_set_fields]: a field whose name and key are
    set, and the field that [_set_fields] stores for a field found under
    [attr]. *)
Definition is_bound (field : Fields.Field) : Prop :=
  is_Some (Fields.name field) ∧ is_Some (Fields.key field).

Definition bind_field (cls : CatalystClass) (attr : string) (field : Fields.Field)
  : Fields.Field :=
  {| Fields.name :=
       match Fields.name field with
       | None => Some (_format_field_name cls attr)
       | n => n
       end;
     Fields.key :=
       match Fields.key field with
       | None => Some (_format_field_key cls attr)
       | k => k
       end;
     Fields.opts := Fields.opts field;
     Fields.error_messages := Fields.error_messages field |}.

End Catalyst.

(* ===================================================================== *)
(** ** Example fields and schemas *)
(* ===================================================================== *)

Module Examples.
Import Utils.

(** [Field(name=n, key=k, load_required=True)] *)
Definition required_field (n k : string) : Fields.Field :=
  Fields.__init__ Fields.Field_Options [Fields.default_error_messages]
    (Some n) (Some k) None None None (Fields.Plain VMissing) None
    None None (Some true) (Fields.Plain VMissing) None None None None.

(** A formatter and parser in the manner of [str]. *)
Definition to_str (v : value) : res value :=
  match v with
  | VNone => Ok (VStr "None")
  | VStr s => Ok (VStr s)
  | _ => Ok (VStr "object")
  end.

(** [Field(formatter=str, format_none=True, parser=str, parse_none=True)] *)
Definition none_formatting_field : Fields.Field :=
  Fields.__init__ Fields.Field_Options [Fields.default_error_messages]
    None None (Some to_str) (Some true) None (Fields.Plain VMissing) None
    (Some to_str) (Some true) None (Fields.Plain VMissing) None None None None.

(** [Field(allow_none=False)] *)
Definition not_none_field : Fields.Field :=
  Fields.__init__ Fields.Field_Options [Fields.default_error_messages]
    None None None None None (Fields.Plain VMissing) None
    None None None (Fields.Plain VMissing) None None (Some false) None.

(** A validator that accepts everything and returns another object. *)
Definition returning_validator (v : value) : res value := Ok (VInt 0).

(** [Field(validators=[returning_validator])] *)
Definition validated_field : Fields.Field :=
  Fields.__init__ Fields.Field_Options [Fields.default_error_messages]
    None None None None None (Fields.Plain VMissing) None
    None None None (Fields.Plain VMissing) None
    (Some [returning_validator]) None None.

(** A class that declares [fields] and inherits everything else from
    [BaseCatalyst], and the instance that [__init__] builds from it with
    the given options when the set of names is iterated in declaration
    order. *)
Definition plain_class (fields : Catalyst.FieldDict) : Catalyst.CatalystClass :=
  {| Catalyst.cls_field_dict := fields;
     Catalyst.cls_Options := Catalyst.BaseCatalyst_Options;
     Catalyst.cls_side_effects := Catalyst.BaseCatalyst_side_effects;
     Catalyst.cls_assign_dump_getter := assign_attr_or_item_getter;
     Catalyst.cls_assign_load_getter := assign_item_getter;
     Catalyst._format_field_key := fun key => key;
     Catalyst._format_field_name := fun name => name |}.

Definition plain_schema (fields : Catalyst.FieldDict) (options : Catalyst.Options.t)
  : Catalyst.BaseCatalyst :=
  {| Catalyst._field_dict := fields;
     Catalyst._dump_field_dict := fields;
     Catalyst._load_field_dict := fields;
     Catalyst.opts := options;
     Catalyst.side_effects := Catalyst.BaseCatalyst_side_effects;
     Catalyst._assign_dump_getter := assign_attr_or_item_getter;
     Catalyst._assign_load_getter := assign_item_getter |}.

(** [class A(Catalyst): a = Field(load_required=True)] *)
Definition schema_a : Catalyst.BaseCatalyst :=
  plain_schema [("a", required_field "a" "a")] Catalyst.BaseCatalyst_Options.

(** [class AB(Catalyst)] with two required fields [a] and [b]. *)
Definition schema_ab : Catalyst.BaseCatalyst :=
  plain_schema [("a", required_field "a" "a"); ("b", required_field "b" "b")]
    Catalyst.BaseCatalyst_Options.

(** A schema whose only field wraps [schema_a], read from the key
    ["profile_data"] and written to the name ["profile"]. *)
Definition profile_field : Fields.Field :=
  Catalyst.NestedField schema_a (Some "profile") (Some "profile_data").

Definition schema_profile : Catalyst.BaseCatalyst :=
  plain_schema [("profile", profile_field)] Catalyst.BaseCatalyst_Options.

(** A schema with the field [n = Field(name='n', key='n', allow_none=False)]. *)
Definition strict_field : Fields.Field :=
  Fields.__init__ Fields.Field_Options [Fields.default_error_messages]
    (Some "n") (Some "n") None None None (Fields.Plain VMissing) None
    None None None (Fields.Plain VMissing) None None (Some false) None.

Definition schema_strict : Catalyst.BaseCatalyst :=
  plain_schema [("n", strict_field)] Catalyst.BaseCatalyst_Options.

(** [title = Field(name='title', key='headline')] and the schema that
    declares it. *)
Definition title_field : Fields.Field :=
  Fields.__init__ Fields.Field_Options [Fields.default_error_messages]
    (Some "title") (Some "headline") None None None (Fields.Plain VMissing) None
    None None None (Fields.Plain VMissing) None None None None.

Definition schema_title : Catalyst.BaseCatalyst :=
  plain_schema [("title", title_field)] Catalyst.BaseCatalyst_Options.



Definition class_a : Catalyst.CatalystClass :=
  plain_class [("a", required_field "a" "a")].

(** A validator that refuses the integers below zero, and one that refuses
    the integers above nine. *)
Definition not_negative (v : value) : res value :=
  match v with
  | VInt z => if (z <? 0)%Z then Raise (VExc ValidationError (VStr "negative"))
              else Ok VNone
  | _ => Ok VNone
  end.

Definition one_digit (v : value) : res value :=
  match v with
  | VInt z => if (9 <? z)%Z then Raise (VExc ValidationError (VStr "too large"))
              else Ok VNone
  | _ => Ok VNone
  end.

(** [Field(validators=[not_negative, one_digit])] and the same field with
    the first validator only. *)
Definition digit_field : Fields.Field :=
  Fields.__init__ Fields.Field_Options [Fields.default_error_messages]
    (Some "digit") (Some "digit") None None None (Fields.Plain VMissing) None
    None None None (Fields.Plain VMissing) None
    (Some [not_negative; one_digit]) None None.

Definition natural_field : Fields.Field :=
  Fields.__init__ Fields.Field_Options [Fields.default_error_messages]
    (Some "digit") (Some "digit") None None None (Fields.Plain VMissing) None
    None None None (Fields.Plain VMissing) None
    (Some [not_negative]) None None.

(** [ListField(digit_field, name='digits', key='digits')] and the schema
    that declares it. *)
Definition digits_field : Fields.Field :=
  Fields.ListField digit_field (Some "digits") (Some "digits") None.


(** [BoolField(name='flag', key='flag')] *)
Definition flag_field : Fields.Field :=
  Fields.BoolField None (Some "flag") (Some "flag") None None.



End Examples.

(* ===================================================================== *)
(** ** Properties of fields *)
(* ===================================================================== *)

Import Utils.

Section field_properties.
Implicit Types (self : Fields.Field) (v : value).

Lemma run_validators_ok_inv vs v r :
  Fields.run_validators vs v = r → r = Ok () ∨ ∃ e, r = Raise e.
Proof. intros <-. destruct (Fields.run_validators vs v) as [[]|e]; eauto. Qed.

Lemma validate_None_allowed self :
  Fields.Options.allow_none (Fields.opts self) = true →
  Fields.validate self VNone = Ok VNone.
Proof. intros H. unfold Fields.validate. simpl. by rewrite H. Qed.

Lemma validate_None_refused self :
  Fields.Options.allow_none (Fields.opts self) = false →
  Fields.validate self VNone = Fields.error self "none".
Proof. intros H. unfold Fields.validate. simpl. by rewrite H. Qed.

(** C10: whenever [validate] returns, it returns the object it was given;
    what the validators return is dropped. *)
Theorem validate_returns_its_argument self v v' :
  Fields.validate self v = Ok v' → v' = v.
Proof.
  unfold Fields.validate.
  destruct (is_None v) eqn:Hnone; simpl.
  - destruct v; try discriminate Hnone.
    destruct (Fields.Options.allow_none _); simpl; [congruence | discriminate].
  - destruct (Fields.run_validators _ v) as [[]|e]; simpl; congruence.
Qed.

Lemma validate_returns_its_argument_witness :
  Fields.validate Examples.validated_field (VInt 5) = Ok (VInt 5) ∧
  VInt 5 = VInt 5.
Proof.
  split; [reflexivity |].
  apply (validate_returns_its_argument Examples.validated_field (VInt 5) (VInt 5)).
  reflexivity.
Defined.

(** C6, as amended: with [parse_none] false, loading [None] raises the
    error of kind [none] when [allow_none] is false and returns [None] when
    it is true, whatever the parser; with [format_none] false and
    [allow_none] true, dumping [None] returns [None], whatever the
    formatter. *)
Theorem none_handling self :
  (Fields.Options.parse_none (Fields.opts self) = false →
     (Fields.Options.allow_none (Fields.opts self) = false →
        Fields.load self VNone = Fields.error self "none") ∧
     (Fields.Options.allow_none (Fields.opts self) = true →
        Fields.load self VNone = Ok VNone) ∧
     (∀ parser, Fields.load (Fields.set_parser self parser) VNone
                = Fields.load self VNone)) ∧
  (Fields.Options.format_none (Fields.opts self) = false →
     (Fields.Options.allow_none (Fields.opts self) = true →
        Fields.dump self VNone = Ok VNone) ∧
     (∀ formatter, Fields.dump (Fields.set_formatter self formatter) VNone
                   = Fields.dump self VNone)).
Proof.
  split.
  - intros Hparse. unfold Fields.load, Fields.parse. simpl. rewrite Hparse. simpl.
    split; [| split].
    + intros H. by rewrite validate_None_refused.
    + intros H. by rewrite validate_None_allowed.
    + done.
  - intros Hformat. unfold Fields.dump, Fields.format. simpl. rewrite Hformat. simpl.
    split.
    + intros H. by rewrite validate_None_allowed.
    + done.
Qed.

Lemma none_handling_witness :
  Fields.load Examples.not_none_field VNone
  = Raise (VExc ValidationError (VStr "Field may not be None.")) ∧
  Fields.load Fields.Field_default VNone = Ok VNone ∧
  Fields.dump Fields.Field_default VNone = Ok VNone.
Proof.
  split; [| split].
  - apply (proj1 (none_handling Examples.not_none_field)); reflexivity.
  - apply (proj1 (none_handling Fields.Field_default)); reflexivity.
  - apply (proj2 (none_handling Fields.Field_default)); reflexivity.
Defined.

(** C6 as stated fails: a field that allows [None] and sets [format_none]
    (or [parse_none]) hands [None] to its formatter (or parser). *)
Lemma none_reaches_formatter_and_parser :
  Fields.Options.allow_none (Fields.opts Examples.none_formatting_field) = true ∧
  Fields.dump Examples.none_formatting_field VNone = Ok (VStr "None") ∧
  Fields.load Examples.none_formatting_field VNone = Ok (VStr "None").
Proof. repeat split. Qed.
End field_properties.

(* ===================================================================== *)
(** ** The field loop of [_process_one] *)
(* ===================================================================== *)

Section field_loop.
Context (d : Catalyst.direction) (get_value : getter) (data : value).
Implicit Types (field : Fields.Field) (fields : list Fields.Field).
Implicit Types (valid errors invalid : gmap pykey value).

Local Abbreviation source := (Catalyst.source d).
Local Abbreviation target := (Catalyst.target d).
Local Abbreviation step := (Catalyst.process_field d get_value data).
Local Abbreviation loop := (Catalyst.process_fields d get_value data).

(** An iteration raises only if the default of the field does. *)
Lemma process_field_returns all_errors field acc :
  returns (Catalyst.default_attr d field) = true →
  ∃ acc' break, step all_errors field acc = Ok (acc', break).
Proof.
  intros Hd. destruct acc as [[valid errors] invalid].
  unfold Catalyst.process_field.
  destruct (Catalyst.default_attr d field) as [default|]; [simpl | done].
  destruct (is_missing _).
  - destruct (Catalyst.required_attr d field); eauto.
  - destruct (Catalyst.call_method _ _ _); eauto.
Qed.

(** An iteration writes [valid_data] at the target of its field only, and
    [errors] and [invalid_data] at its source only; it never removes an
    error. *)
Lemma process_field_frame all_errors field valid errors invalid
    valid' errors' invalid' break :
  step all_errors field (valid, errors, invalid)
  = Ok ((valid', errors', invalid'), break) →
  (∀ k, k ≠ target field → valid' !! k = valid !! k) ∧
  (∀ k, k ≠ source field → errors' !! k = errors !! k) ∧
  (∀ k, k ≠ source field → invalid' !! k = invalid !! k) ∧
  (errors' = ∅ → errors = ∅) ∧
  (break = true → all_errors = false ∧ errors' ≠ ∅).
Proof.
  unfold Catalyst.process_field, Catalyst.source, Catalyst.target.
  destruct (Catalyst.default_attr d field) as [default|]; [simpl | done].
  destruct (is_missing _).
  - destruct (Catalyst.required_attr d field); intros [= <- <- <- <-].
    + repeat split; try done.
      * intros k Hk. by rewrite lookup_insert_ne.
      * intros H. by apply insert_non_empty in H.
      * by destruct all_errors.
      * apply insert_non_empty.
    + repeat split; done.
  - destruct (Catalyst.call_method _ _ _) as [v|e].
    + intros [= <- <- <- <-]. repeat split; try done.
      intros k Hk. by rewrite lookup_insert_ne.
    + destruct (Catalyst.carries_result e); intros [= <- <- <- <-].
      * repeat split; try (intros k Hk; by rewrite lookup_insert_ne).
        -- intros H. by apply insert_non_empty in H.
        -- by destruct all_errors.
        -- apply insert_non_empty.
      * repeat split; try done; try (intros k Hk; by rewrite lookup_insert_ne).
        -- intros H. by apply insert_non_empty in H.
        -- by destruct all_errors.
        -- apply insert_non_empty.
Qed.

Lemma process_fields_cons all_errors field fields acc acc' break :
  step all_errors field acc = Ok (acc', break) →
  loop all_errors (field :: fields) acc
  = if break then Ok acc' else loop all_errors fields acc'.
Proof. intros H. simpl. by rewrite H. Qed.

(** The loop raises only if a default does: no exception of a formatter,
    parser or validator leaves it. *)
Lemma process_fields_returns all_errors fields acc :
  Forall (λ field, returns (Catalyst.default_attr d field) = true) fields →
  ∃ acc', loop all_errors fields acc = Ok acc'.
Proof.
  intros H. revert acc. induction H as [|field fields Hd _ IH]; intros acc.
  - by eexists.
  - destruct (process_field_returns all_errors field acc Hd) as (acc' & break & Hs).
    rewrite (process_fields_cons _ _ _ _ _ _ Hs).
    destruct break; [by eexists | apply IH].
Qed.

Lemma process_fields_frame all_errors fields valid errors invalid
    valid' errors' invalid' :
  loop all_errors fields (valid, errors, invalid) = Ok (valid', errors', invalid') →
  (∀ k, Forall (λ field, target field ≠ k) fields → valid' !! k = valid !! k) ∧
  (∀ k, Forall (λ field, source field ≠ k) fields → errors' !! k = errors !! k) ∧
  (∀ k, Forall (λ field, source field ≠ k) fields → invalid' !! k = invalid !! k) ∧
  (errors' = ∅ → errors = ∅).
Proof.
  revert valid errors invalid.
  induction fields as [|field fields IH]; intros valid errors invalid.
  - by intros [= <- <- <-].
  - cbn [Catalyst.process_fields].
    destruct (step all_errors field (valid, errors, invalid))
      as [[[[v1 e1] i1] break]|] eqn:Hs; [simpl | done].
    destruct (process_field_frame _ _ _ _ _ _ _ _ _ Hs) as (Hv & He & Hi & Hempty & _).
    intros Hl.
    assert (∃ v2 e2 i2, (v2, e2, i2) = (valid', errors', invalid') ∧
              (∀ k, Forall (λ field, target field ≠ k) fields → v2 !! k = v1 !! k) ∧
              (∀ k, Forall (λ field, source field ≠ k) fields → e2 !! k = e1 !! k) ∧
              (∀ k, Forall (λ field, source field ≠ k) fields → i2 !! k = i1 !! k) ∧
              (e2 = ∅ → e1 = ∅)) as (v2 & e2 & i2 & [= -> -> ->] & Hv2 & He2 & Hi2 & Hempty2).
    { destruct break.
      - injection Hl as <- <- <-. by exists v1, e1, i1.
      - exists valid', errors', invalid'. split; [done |]. by apply IH. }
    repeat split.
    + intros k [Hk Hks]%Forall_cons. rewrite Hv2, Hv; done.
    + intros k [Hk Hks]%Forall_cons. rewrite He2, He; done.
    + intros k [Hk Hks]%Forall_cons. rewrite Hi2, Hi; done.
    + auto.
Qed.

(** Fields that the loop went through without a [break] can be split off:
    this is the case in collect-all mode, and in fail-fast mode as long as
    no error is recorded. *)
Lemma process_fields_app all_errors fields1 fields2 acc valid errors invalid :
  loop all_errors fields1 acc = Ok (valid, errors, invalid) →
  all_errors = true ∨ errors = ∅ →
  loop all_errors (fields1 ++ fields2) acc
  = loop all_errors fields2 (valid, errors, invalid).
Proof.
  revert acc. induction fields1 as [|field fields1 IH]; intros acc.
  - by intros [= ->].
  - cbn [Catalyst.process_fields app].
    destruct (step all_errors field acc) as [[[[v1 e1] i1] break]|] eqn:Hs;
      [simpl | done].
    destruct acc as [[v0 e0] i0].
    destruct (process_field_frame _ _ _ _ _ _ _ _ _ Hs) as (_ & _ & _ & _ & Hbreak).
    destruct break.
    + destruct Hbreak as [-> Hne]; [done |].
      intros [= <- <- <-] [|]; done.
    + apply IH.
Qed.



(** The four ways an iteration ends. *)
Lemma process_field_skips all_errors field acc default :
  Catalyst.default_attr d field = Ok default →
  is_missing (get_value data (source field) default) = true →
  Catalyst.required_attr d field = false →
  step all_errors field acc = Ok (acc, false).
Proof.
  intros Hd Hm Hr. destruct acc as [[valid errors] invalid].
  unfold Catalyst.process_field, Catalyst.source in *.
  rewrite Hd. simpl. by rewrite Hm, Hr.
Qed.

Lemma process_field_required all_errors field valid errors invalid default :
  Catalyst.default_attr d field = Ok default →
  is_missing (get_value data (source field) default) = true →
  Catalyst.required_attr d field = true →
  step all_errors field (valid, errors, invalid)
  = Ok ((valid, <[source field := Fields.get_error field "required"]> errors, invalid),
        negb all_errors).
Proof.
  intros Hd Hm Hr. unfold Catalyst.process_field, Catalyst.source in *.
  rewrite Hd. simpl. by rewrite Hm, Hr.
Qed.

Lemma process_field_stores all_errors field valid errors invalid default v :
  Catalyst.default_attr d field = Ok default →
  is_missing (get_value data (source field) default) = false →
  Catalyst.call_method (Catalyst.method_name d) field
    (get_value data (source field) default) = Ok v →
  step all_errors field (valid, errors, invalid)
  = Ok ((<[target field := v]> valid, errors, invalid), false).
Proof.
  intros Hd Hm Hc. unfold Catalyst.process_field, Catalyst.source, Catalyst.target in *.
  rewrite Hd. simpl. by rewrite Hm, Hc.
Qed.

Lemma process_field_raises all_errors field valid errors invalid default e :
  Catalyst.default_attr d field = Ok default →
  is_missing (get_value data (source field) default) = false →
  Catalyst.call_method (Catalyst.method_name d) field
    (get_value data (source field) default) = Raise e →
  step all_errors field (valid, errors, invalid)
  = Ok (if Catalyst.carries_result e then
          (<[target field := Utils.valid_data (msg e)]> valid,
           <[source field := Utils.errors (msg e)]> errors,
           <[source field := Utils.invalid_data (msg e)]> invalid)
        else
          (valid, <[source field := e]> errors,
           <[source field := get_value data (source field) default]> invalid),
        negb all_errors).
Proof.
  intros Hd Hm Hc. unfold Catalyst.process_field, Catalyst.source, Catalyst.target in *.
  rewrite Hd. simpl. by rewrite Hm, Hc.
Qed.

Lemma process_field_passes all_errors field valid errors invalid :
  Catalyst.field_passes d get_value data field = true →
  ∃ valid', step all_errors field (valid, errors, invalid)
            = Ok ((valid', errors, invalid), false).
Proof.
  unfold Catalyst.field_passes.
  destruct (Catalyst.default_attr d field) as [default|] eqn:Hd; [| done].
  intros H. cbn zeta in H.
  destruct (is_missing _) eqn:Hm.
  - apply negb_true_iff in H. exists valid. by eapply process_field_skips.
  - destruct (Catalyst.call_method _ _ _) as [v|] eqn:Hc; [| done].
    eexists. by eapply process_field_stores.
Qed.

Lemma process_field_fails all_errors field valid errors invalid :
  Catalyst.field_fails d get_value data field = true →
  ∃ valid' err invalid',
    step all_errors field (valid, errors, invalid)
    = Ok ((valid', <[source field := err]> errors, invalid'), negb all_errors).
Proof.
  unfold Catalyst.field_fails.
  destruct (Catalyst.default_attr d field) as [default|] eqn:Hd; [| done].
  intros H. cbn zeta in H.
  destruct (is_missing _) eqn:Hm.
  - do 3 eexists. by eapply process_field_required.
  - destruct (Catalyst.call_method _ _ _) as [|e] eqn:Hc; [done |].
    erewrite process_field_raises by done.
    destruct (Catalyst.carries_result e); by do 3 eexists.
Qed.

(** Fields that pass leave [errors] and [invalid_data] as they are, in
    either mode. *)
Lemma process_fields_pass all_errors fields valid errors invalid :
  Forall (λ field, Catalyst.field_passes d get_value data field = true) fields →
  ∃ valid', loop all_errors fields (valid, errors, invalid)
            = Ok (valid', errors, invalid).
Proof.
  intros H. revert valid. induction H as [|field fields Hp _ IH]; intros valid.
  - by eexists.
  - destruct (process_field_passes all_errors field valid errors invalid Hp)
      as [valid1 Hs].
    rewrite (process_fields_cons _ _ _ _ _ _ Hs). apply IH.
Qed.

(** In a run without [break], a field whose transform returns has its
    result under its target, provided no other field has the same target. *)
Lemma process_fields_stores all_errors fields valid errors invalid
    valid' errors' invalid' field default v :
  loop all_errors fields (valid, errors, invalid) = Ok (valid', errors', invalid') →
  all_errors = true ∨ errors' = ∅ →
  field ∈ fields →
  NoDup (target <$> fields) →
  Catalyst.default_attr d field = Ok default →
  is_missing (get_value data (source field) default) = false →
  Catalyst.call_method (Catalyst.method_name d) field
    (get_value data (source field) default) = Ok v →
  valid' !! target field = Some v.
Proof.
  intros Hl Hmode Hin Hnodup Hd Hm Hc.
  revert valid errors invalid Hl.
  induction fields as [|field0 fields IH]; intros valid errors invalid Hl.
  - by apply elem_of_nil in Hin.
  - apply NoDup_cons in Hnodup as [Hfresh Hnodup]. fold (fmap target fields) in *.
    cbn [Catalyst.process_fields] in Hl.
    destruct (step all_errors field0 (valid, errors, invalid))
      as [[[[v1 e1] i1] break]|] eqn:Hs; [simpl in Hl | done].
    assert (break = false) as ->.
    { destruct break; [| done].
      destruct (process_field_frame _ _ _ _ _ _ _ _ _ Hs) as (_ & _ & _ & _ & Hb).
      destruct Hb as [-> Hne]; [done |]. injection Hl as <- <- <-.
      by destruct Hmode. }
    apply elem_of_cons in Hin as [-> | Hin].
    + erewrite process_field_stores in Hs by done. injection Hs as <- <- <-.
      destruct (process_fields_frame _ _ _ _ _ _ _ _ Hl) as (Hv & _).
      rewrite Hv.
      * apply lookup_insert_eq.
      * apply Forall_forall. intros f Hf Heq. apply Hfresh.
        rewrite <- Heq. by apply list_elem_of_fmap_2.
    + by eapply IH.
Qed.

End field_loop.



(* ===================================================================== *)
(** ** Single items: [_process_one] *)
(* ===================================================================== *)

Section single_item.
Implicit Types (self : Catalyst.BaseCatalyst) (field : Fields.Field).

Lemma _process_one_dump self data all_errors :
  Catalyst._process_one self "dump" data all_errors
  = '(valid, errors, invalid) ←
      Catalyst.process_fields (Catalyst.dump_direction self)
        (Catalyst._assign_dump_getter self data) data all_errors
        (odict_values (Catalyst._dump_field_dict self)) (∅, ∅, ∅);
    Ok (VDict valid, VDict errors, VDict invalid).
Proof. reflexivity. Qed.

Lemma _process_one_load self data all_errors :
  Catalyst._process_one self "load" data all_errors
  = '(valid, errors, invalid) ←
      Catalyst.process_fields (Catalyst.load_direction self)
        (Catalyst._assign_load_getter self data) data all_errors
        (odict_values (Catalyst._load_field_dict self)) (∅, ∅, ∅);
    Ok (VDict valid, VDict errors, VDict invalid).
Proof. reflexivity. Qed.

(** A schema that is constructed without overriding an option has the
    options of its class. *)
Lemma __init___default_options set_order cls schema fields dump_fields load_fields self :
  Catalyst.__init__ set_order cls schema fields None None
    dump_fields None load_fields None = Ok self →
  Catalyst.opts self = Catalyst.cls_Options cls.
Proof.
  unfold Catalyst.__init__, Catalyst.init_registries.
  destruct (Catalyst.own_field_dict _ _ _) as [fd|]; [simpl | done].
  destruct (Catalyst.copy_registries _ _ _ _ _) as [[dfd lfd]|]; [simpl | done].
  destruct (Catalyst.check_methods _); [simpl | done].
  intros [= <-]. simpl. unfold Catalyst.make_Options. simpl.
  by destruct (Catalyst.cls_Options cls).
Qed.

(** C1, as amended: a schema constructed with the default options has
    [dump_method = 'format'] and collects all errors; when it processes a
    single item for dumping, every field of the dump registry whose raw
    value is not [missing] is handed to the [format] operation of the field
    (no validation), and the object that [format] returns is stored in
    [valid_data] under the key of the field.  Keys are taken to be
    pairwise distinct, and callable defaults to return. *)
Theorem default_dump_formats set_order cls schema fields dump_fields load_fields
    self data :
  Catalyst.cls_Options cls = Catalyst.BaseCatalyst_Options →
  Catalyst.__init__ set_order cls schema fields None None
    dump_fields None load_fields None = Ok self →
  let registry := odict_values (Catalyst._dump_field_dict self) in
  NoDup ((λ field, Catalyst.of_attr (Fields.key field)) <$> registry) →
  Forall (λ field, returns (Fields.dump_default field) = true) registry →
  ∃ valid errors invalid,
    Catalyst._process_one self "dump" data
      (Catalyst.Options.all_errors (Catalyst.opts self))
    = Ok (VDict valid, VDict errors, VDict invalid) ∧
    ∀ field default v,
      field ∈ registry →
      Fields.dump_default field = Ok default →
      let raw_value :=
        Catalyst._assign_dump_getter self data data
          (Catalyst.of_attr (Fields.name field)) default in
      is_missing raw_value = false →
      Fields.format field raw_value = Ok v →
      valid !! Catalyst.of_attr (Fields.key field) = Some v.
Proof.
  intros Hcls Hinit registry Hnodup Hdefaults.
  apply __init___default_options in Hinit. rewrite Hcls in Hinit.
  rewrite _process_one_dump, Hinit. simpl.
  destruct (process_fields_returns (Catalyst.dump_direction self)
              (Catalyst._assign_dump_getter self data) data true registry
              (∅, ∅, ∅) Hdefaults) as [[[valid errors] invalid] Hl].
  fold registry. rewrite Hl. simpl.
  exists valid, errors, invalid. split; [done |].
  intros field default v Hin Hd Hm Hf.
  eapply (process_fields_stores _ _ _ _ _ _ _ _ _ _ _ field default v Hl);
    try done; [by left |].
  unfold Catalyst.dump_direction. simpl. by rewrite Hinit.
Qed.
End single_item.

Lemma default_dump_formats_witness :
  ∃ valid errors invalid,
    Catalyst._process_one Examples.schema_strict "dump"
      (VDict {[ KStr "n" := VInt 3 ]}) true
    = Ok (VDict valid, VDict errors, VDict invalid) ∧
    valid !! KStr "n" = Some (VInt 3).
Proof.
  destruct (default_dump_formats (λ l, l)
              (Examples.plain_class [("n", Examples.strict_field)])
              None None None None Examples.schema_strict
              (VDict {[ KStr "n" := VInt 3 ]}))
    as (valid & errors & invalid & Hrun & Hstored).
  - reflexivity.
  - vm_compute. reflexivity.
  - apply NoDup_singleton.
  - repeat constructor.
  - exists valid, errors, invalid. split; [exact Hrun |].
    apply (Hstored Examples.strict_field VMissing (VInt 3)).
    + apply list_elem_of_here.
    + reflexivity.
    + vm_compute. reflexivity.
    + reflexivity.
Defined.

(** C1 as stated fails: with the default options the [dump] operation of
    the field is not invoked.  On [None], the [dump] operation of a field
    that refuses [None] raises, while the schema stores [None] and records
    no error. *)
Lemma default_dump_does_not_validate :
  Catalyst.__init__ (λ l, l) (Examples.plain_class [("n", Examples.strict_field)])
    None None None None None None None None = Ok Examples.schema_strict ∧
  Fields.dump Examples.strict_field VNone
  = Raise (VExc ValidationError (VStr "Field may not be None.")) ∧
  Catalyst._process_one Examples.schema_strict "dump"
    (VDict {[ KStr "n" := VNone ]}) true
  = Ok (VDict {[ KStr "n" := VNone ]}, VDict ∅, VDict ∅).
Proof. split; [| split]; vm_compute; reflexivity. Qed.

(* ===================================================================== *)
(** ** The flow around the loop: [_process_flow], [load], [dump] *)
(* ===================================================================== *)

Section flow.
Implicit Types (self : Catalyst.BaseCatalyst) (field : Fields.Field).

Lemma _side_effect_inherited self name data :
  Catalyst.side_effects self = Catalyst.BaseCatalyst_side_effects →
  name ∈ Catalyst.side_effect_names →
  Catalyst._side_effect self name data = (data, VNone, VNone).
Proof.
  intros Hs Hin. unfold Catalyst._side_effect. rewrite Hs.
  unfold Catalyst.side_effect_names in Hin.
  repeat (apply elem_of_cons in Hin as [-> | Hin]; [vm_compute; reflexivity |]).
  by apply elem_of_nil in Hin.
Qed.


(** The flow of a schema that inherits the side effects of [BaseCatalyst]. *)
Lemma process_flow_with_inherited handle self name method_name cls data
    raise_error all_errors :
  (name = "dump" ∧ cls = DumpResult) ∨ (name = "load" ∧ cls = LoadResult) →
  Catalyst.side_effects self = Catalyst.BaseCatalyst_side_effects →
  "pre_" +:+ method_name ∈ Catalyst.side_effect_names →
  "post_" +:+ method_name ∈ Catalyst.side_effect_names →
  Catalyst.process_flow_with handle self name method_name data raise_error all_errors
  = '(valid, errors, invalid) ←
      handle name data
        (OptionBox_get (Catalyst.Options.all_errors (Catalyst.opts self)) all_errors);
    if truthy errors then
      if OptionBox_get (Catalyst.Options.raise_error (Catalyst.opts self)) raise_error
      then Raise (VExc ValidationError (VResult cls valid errors invalid))
      else Ok (VResult cls valid errors invalid)
    else Ok (VResult cls valid VNone VNone).
Proof.
  intros Hname Hs Hpre Hpost. unfold Catalyst.process_flow_with.
  rewrite (_side_effect_inherited _ _ _ Hs Hpre).
  assert ((if String.eqb name "dump" then Ok DumpResult
           else if String.eqb name "load" then Ok LoadResult
           else Raise (VExc ValueError
                  (VStr "Argument `name` must be `dump` or `load`."))) = Ok cls)
    as -> by (by destruct Hname as [[-> ->] | [-> ->]]).
  simpl.
  destruct (handle name data _) as [[[valid errors] invalid]|]; [simpl | done].
  destruct (truthy errors) eqn:Ht; simpl.
  - rewrite Ht. simpl. done.
  - by rewrite (_side_effect_inherited _ _ _ Hs Hpost).
Qed.

Lemma load_inherited self data raise_error all_errors :
  Catalyst.side_effects self = Catalyst.BaseCatalyst_side_effects →
  Catalyst.load self data raise_error all_errors
  = '(valid, errors, invalid) ←
      Catalyst._process_one self "load" data
        (OptionBox_get (Catalyst.Options.all_errors (Catalyst.opts self)) all_errors);
    if truthy errors then
      if OptionBox_get (Catalyst.Options.raise_error (Catalyst.opts self)) raise_error
      then Raise (VExc ValidationError (VResult LoadResult valid errors invalid))
      else Ok (VResult LoadResult valid errors invalid)
    else Ok (VResult LoadResult valid VNone VNone).
Proof.
  intros Hs. unfold Catalyst.load, Catalyst._process_flow.
  apply process_flow_with_inherited; [by right | done | |];
    unfold Catalyst.side_effect_names; set_solver.
Qed.

Lemma dump_inherited self data raise_error all_errors :
  Catalyst.side_effects self = Catalyst.BaseCatalyst_side_effects →
  Catalyst.dump self data raise_error all_errors
  = '(valid, errors, invalid) ←
      Catalyst._process_one self "dump" data
        (OptionBox_get (Catalyst.Options.all_errors (Catalyst.opts self)) all_errors);
    if truthy errors then
      if OptionBox_get (Catalyst.Options.raise_error (Catalyst.opts self)) raise_error
      then Raise (VExc ValidationError (VResult DumpResult valid errors invalid))
      else Ok (VResult DumpResult valid errors invalid)
    else Ok (VResult DumpResult valid VNone VNone).
Proof.
  intros Hs. unfold Catalyst.dump, Catalyst._process_flow.
  apply process_flow_with_inherited; [by left | done | |];
    unfold Catalyst.side_effect_names; set_solver.
Qed.


Lemma truthy_VDict_insert (m : gmap pykey value) k v :
  truthy (VDict (<[k := v]> m)) = true.
Proof.
  simpl. apply negb_true_iff, Nat.eqb_neq. intros H.
  apply map_size_empty_iff in H. by apply insert_non_empty in H.
Qed.

(** C3: take a schema that inherits the side effects and getters of
    [BaseCatalyst], with a load-required field without load default; the
    other fields of the load registry go through on the empty mapping (a
    field that is not required and has no default does).  Then [load] of
    the empty mapping results in a result that is not valid, with the
    error of kind [required] of that field under its key.  The result is
    returned when [raise_error] resolves to false. *)
Theorem required_field_missing self fields1 field fields2 raise_error all_errors :
  Catalyst.inherits_BaseCatalyst self →
  odict_values (Catalyst._load_field_dict self) = fields1 ++ field :: fields2 →
  Fields.Options.load_required (Fields.opts field) = true →
  Fields.Options.load_default (Fields.opts field) = Fields.Plain VMissing →
  Forall (λ f, Catalyst.field_passes (Catalyst.load_direction self) get_item
                 (VDict ∅) f = true) (fields1 ++ fields2) →
  OptionBox_get (Catalyst.Options.raise_error (Catalyst.opts self)) raise_error
  = false →
  ∃ result,
    Catalyst.load self (VDict ∅) raise_error all_errors = Ok result ∧
    is_valid result = false ∧
    errors result
    = VDict {[ Catalyst.of_attr (Fields.key field)
               := Fields.get_error field "required" ]}.
Proof.
  intros (Hs & _ & Hg) Hregistry Hrequired Hdefault [Hp1 Hp2]%Forall_app Hraise.
  rewrite (load_inherited _ _ _ _ Hs), _process_one_load, Hregistry, Hg, Hraise.
  change (assign_item_getter (VDict ∅)) with get_item.
  set (all := OptionBox_get _ all_errors).
  destruct (process_fields_pass (Catalyst.load_direction self) get_item (VDict ∅)
              all fields1 ∅ ∅ ∅ Hp1) as [valid1 Hl1].
  rewrite (process_fields_app _ _ _ _ _ _ _ _ _ _ Hl1) by (by right).
  assert (Catalyst.process_field (Catalyst.load_direction self) get_item (VDict ∅)
            all field (valid1, ∅, ∅)
          = Ok ((valid1,
                 <[Catalyst.source (Catalyst.load_direction self) field
                   := Fields.get_error field "required"]> ∅, ∅), negb all)) as Hstep.
  { apply process_field_required with (default := VMissing); try done.
    simpl. unfold Fields.load_default. by rewrite Hdefault. }
  rewrite (process_fields_cons _ _ _ _ _ _ _ _ _ Hstep).
  assert (∀ valid2,
            truthy (VDict (<[Catalyst.source (Catalyst.load_direction self) field
                             := Fields.get_error field "required"]> ∅)) = true →
            ∃ result,
              (if truthy (VDict (<[Catalyst.source (Catalyst.load_direction self) field
                                   := Fields.get_error field "required"]> ∅))
               then Ok (VResult LoadResult (VDict valid2)
                          (VDict (<[Catalyst.source (Catalyst.load_direction self) field
                                    := Fields.get_error field "required"]> ∅))
                          (VDict ∅))
               else Ok (VResult LoadResult (VDict valid2) VNone VNone))
              = Ok result ∧
              is_valid result = false ∧
              errors result
              = VDict {[ Catalyst.of_attr (Fields.key field)
                         := Fields.get_error field "required" ]}) as Hend.
  { intros valid2 Ht. rewrite Ht. eexists. split; [done |]. split.
    - unfold is_valid. simpl errors. by rewrite Ht.
    - simpl. by rewrite insert_empty. }
  destruct (negb all).
  - apply Hend, truthy_VDict_insert.
  - destruct (process_fields_pass (Catalyst.load_direction self) get_item (VDict ∅)
                all fields2 valid1
                (<[Catalyst.source (Catalyst.load_direction self) field
                   := Fields.get_error field "required"]> ∅) ∅ Hp2) as [valid2 Hl2].
    rewrite Hl2. apply Hend, truthy_VDict_insert.
Qed.

(** C4: take a schema that inherits the side effects and getters of
    [BaseCatalyst] and whose load registry holds two fields with different
    keys, each of which fails on the data (it is required and missing, or
    its transform raises).  A [load] that collects all errors gives a
    result with exactly two errors; a fail-fast [load] gives exactly one,
    the error of the first field. *)
Theorem two_failing_fields self attr1 field1 attr2 field2 data raise_error :
  Catalyst.inherits_BaseCatalyst self →
  Catalyst._load_field_dict self = [(attr1, field1); (attr2, field2)] →
  Catalyst.of_attr (Fields.key field1) ≠ Catalyst.of_attr (Fields.key field2) →
  Catalyst.field_fails (Catalyst.load_direction self) get_item data field1 = true →
  Catalyst.field_fails (Catalyst.load_direction self) get_item data field2 = true →
  OptionBox_get (Catalyst.Options.raise_error (Catalyst.opts self)) raise_error
  = false →
  (∃ valid errors invalid,
     Catalyst.load self data raise_error (Some true)
     = Ok (VResult LoadResult valid (VDict errors) invalid) ∧
     size errors = 2) ∧
  (∃ valid errors invalid,
     Catalyst.load self data raise_error (Some false)
     = Ok (VResult LoadResult valid (VDict errors) invalid) ∧
     size errors = 1 ∧
     is_Some (errors !! Catalyst.of_attr (Fields.key field1))).
Proof.
  intros (Hs & _ & Hg) Hregistry Hkeys Hf1 Hf2 Hraise.
  rewrite !(load_inherited _ _ _ _ Hs), !_process_one_load, Hregistry, Hg, Hraise.
  change (assign_item_getter data) with get_item.
  cbn [OptionBox_get odict_values fmap list_fmap snd].
  split.
  - destruct (process_field_fails _ _ _ true field1 ∅ ∅ ∅ Hf1)
      as (v1 & err1 & i1 & Hstep1).
    destruct (process_field_fails _ _ _ true field2 v1
                (<[Catalyst.source (Catalyst.load_direction self) field1 := err1]> ∅)
                i1 Hf2)
      as (v2 & err2 & i2 & Hstep2).
    rewrite (process_fields_cons _ _ _ _ _ _ _ _ _ Hstep1). cbn [negb].
    rewrite (process_fields_cons _ _ _ _ _ _ _ _ _ Hstep2). cbn [negb].
    assert (size (<[Catalyst.source (Catalyst.load_direction self) field2 := err2]>
                    (<[Catalyst.source (Catalyst.load_direction self) field1 := err1]>
                       (∅ : gmap pykey value))) = 2) as Hsize.
    { rewrite map_size_insert_None, map_size_insert_None, map_size_empty; [done.. |].
      rewrite lookup_insert_ne; [done |]. exact Hkeys. }
    simpl mbind. cbn beta iota. rewrite Hsize. simpl.
    by do 3 eexists.
  - destruct (process_field_fails _ _ _ false field1 ∅ ∅ ∅ Hf1)
      as (v1 & err1 & i1 & Hstep1).
    rewrite (process_fields_cons _ _ _ _ _ _ _ _ _ Hstep1). cbn [negb].
    assert (size (<[Catalyst.source (Catalyst.load_direction self) field1 := err1]>
                    (∅ : gmap pykey value)) = 1) as Hsize
      by (by rewrite map_size_insert_None, map_size_empty).
    simpl mbind. cbn beta iota. rewrite Hsize. simpl.
    do 3 eexists. split; [done |]. split; [done |].
    rewrite lookup_insert_eq. by eexists.
Qed.
End flow.

(* ===================================================================== *)
(** ** Batches: [_process_many] *)
(* ===================================================================== *)

Section batch.
Context (flow : value → res value).
Implicit Types (items : list value) (results : list value).
Implicit Types (errors invalid : gmap pykey value).

Lemma indexed_cons part i r results m k :
  Catalyst.indexed part i (r :: results) m k
  = Catalyst.indexed part (S i) results
      (if is_valid r then m else <[KInt i := part r]> m) k.
Proof.
  unfold Catalyst.indexed. destruct k as [| |j]; try (destruct (is_valid r); [done |]).
  - by rewrite lookup_insert_ne.
  - by rewrite lookup_insert_ne.
  - destruct (decide (i ≤ j)) as [Hle|Hgt].
    + destruct (decide (S i ≤ j)) as [Hlt|Heq].
      * replace (j - i) with (S (j - S i)) by lia. simpl.
        destruct (results !! (j - S i)) as [r'|]; [destruct (is_valid r') |];
          try done; destruct (is_valid r); try done;
          rewrite lookup_insert_ne; try done; intros [= ->]; lia.
      * assert (j = i) as -> by lia. rewrite Nat.sub_diag. simpl.
        destruct (is_valid r); [done |]. by rewrite lookup_insert_eq.
    + destruct (decide (S i ≤ j)); [lia |].
      destruct (is_valid r); [done |].
      rewrite lookup_insert_ne; [done |]. intros [= ->]. lia.
Qed.

Lemma process_items_collect i items results valid errors invalid :
  Forall2 (λ item result, flow item = Ok result) items results →
  ∃ errors' invalid',
    Catalyst.process_items flow true i items (valid, errors, invalid)
    = Ok (valid ++ (valid_data <$> results), errors', invalid') ∧
    ∀ k, errors' !! k = Catalyst.indexed Utils.errors i results errors k ∧
         invalid' !! k = Catalyst.indexed invalid_data i results invalid k.
Proof.
  intros H. revert i valid errors invalid.
  induction H as [|item result items results Hflow _ IH];
    intros i valid errors invalid.
  - exists errors, invalid. rewrite app_nil_r. split; [done |].
    intros k. unfold Catalyst.indexed. destruct k as [| |j]; try done.
    destruct (decide (i ≤ j)); by rewrite ?lookup_nil.
  - cbn [Catalyst.process_items]. rewrite Hflow. simpl mbind.
    destruct (IH (S i) (valid ++ [valid_data result])
                (if is_valid result then errors
                 else <[KInt i := Utils.errors result]> errors)
                (if is_valid result then invalid
                 else <[KInt i := invalid_data result]> invalid))
      as (errors' & invalid' & Hrun & Hlookup).
    exists errors', invalid'. split.
    + destruct (is_valid result); simpl;
        rewrite Hrun, <- app_assoc; done.
    + intros k. rewrite !indexed_cons. apply Hlookup.
Qed.

Lemma process_items_fail_fast i items1 item items2 results1 result
    valid errors invalid :
  Forall2 (λ item result, flow item = Ok result ∧ is_valid result = true)
    items1 results1 →
  flow item = Ok result →
  is_valid result = false →
  Catalyst.process_items flow false i (items1 ++ item :: items2)
    (valid, errors, invalid)
  = Ok (valid ++ (valid_data <$> results1) ++ [valid_data result],
        <[KInt (i + length items1) := Utils.errors result]> errors,
        <[KInt (i + length items1) := invalid_data result]> invalid).
Proof.
  intros H Hflow Hinvalid. revert i valid.
  induction H as [|item1 result1 items1 results1 [Hflow1 Hvalid1] _ IH];
    intros i valid.
  - cbn [app Catalyst.process_items]. rewrite Hflow. simpl mbind.
    rewrite Hinvalid. simpl. by rewrite Nat.add_0_r.
  - cbn [app Catalyst.process_items]. rewrite Hflow1. simpl mbind.
    rewrite Hvalid1. simpl. rewrite IH.
    rewrite <- app_assoc. simpl. by rewrite Nat.add_succ_r.
Qed.
End batch.

Section batch_load.
Implicit Types (self : Catalyst.BaseCatalyst) (field : Fields.Field).

Lemma load_many_inherited self data raise_error all_errors :
  Catalyst.side_effects self = Catalyst.BaseCatalyst_side_effects →
  Catalyst.load_many self data raise_error all_errors
  = '(valid, errors, invalid) ←
      Catalyst._process_many self "load" data
        (OptionBox_get (Catalyst.Options.all_errors (Catalyst.opts self)) all_errors);
    if truthy errors then
      if OptionBox_get (Catalyst.Options.raise_error (Catalyst.opts self)) raise_error
      then Raise (VExc ValidationError (VResult LoadResult valid errors invalid))
      else Ok (VResult LoadResult valid errors invalid)
    else Ok (VResult LoadResult valid VNone VNone).
Proof.
  intros Hs. unfold Catalyst.load_many, Catalyst._process_flow.
  apply process_flow_with_inherited; [by right | done | |];
    unfold Catalyst.side_effect_names; set_solver.
Qed.

(** The single-item flow of a schema with one required field, on an item
    that holds the field and on an empty item. *)
Lemma load_one_present self attr field k x v all_errors :
  Catalyst.inherits_BaseCatalyst self →
  Catalyst._load_field_dict self = [(attr, field)] →
  Catalyst.of_attr (Fields.key field) = k →
  Fields.Options.load_default (Fields.opts field) = Fields.Plain VMissing →
  is_missing x = false →
  Catalyst.call_method (Catalyst.Options.load_method (Catalyst.opts self)) field x
  = Ok v →
  Catalyst._process_flow self "load" false (VDict {[ k := x ]}) (Some false)
    (Some all_errors)
  = Ok (VResult LoadResult (VDict {[ Catalyst.of_attr (Fields.name field) := v ]})
          VNone VNone).
Proof.
  intros (Hs & _ & Hg) Hregistry <- Hdefault Hx Hcall.
  change (Catalyst._process_flow self "load" false ?d ?r ?a)
    with (Catalyst.load self d r a).
  rewrite (load_inherited _ _ _ _ Hs), _process_one_load, Hregistry, Hg.
  cbn [OptionBox_get odict_values fmap list_fmap snd].
  change (assign_item_getter _) with get_item.
  erewrite process_fields_cons; last first.
  { apply process_field_stores with (default := VMissing) (v := v).
    - simpl. unfold Fields.load_default. by rewrite Hdefault.
    - unfold get_item. by rewrite lookup_singleton_eq.
    - unfold get_item. by rewrite lookup_singleton_eq. }
  simpl. by rewrite insert_empty.
Qed.

Lemma load_one_missing self attr field all_errors :
  Catalyst.inherits_BaseCatalyst self →
  Catalyst._load_field_dict self = [(attr, field)] →
  Fields.Options.load_required (Fields.opts field) = true →
  Fields.Options.load_default (Fields.opts field) = Fields.Plain VMissing →
  Catalyst._process_flow self "load" false (VDict ∅) (Some false) (Some all_errors)
  = Ok (VResult LoadResult (VDict ∅)
          (VDict {[ Catalyst.of_attr (Fields.key field)
                    := Fields.get_error field "required" ]})
          (VDict ∅)).
Proof.
  intros (Hs & _ & Hg) Hregistry Hrequired Hdefault.
  change (Catalyst._process_flow self "load" false ?d ?r ?a)
    with (Catalyst.load self d r a).
  rewrite (load_inherited _ _ _ _ Hs), _process_one_load, Hregistry, Hg.
  cbn [OptionBox_get odict_values fmap list_fmap snd].
  change (assign_item_getter _) with get_item.
  erewrite process_fields_cons; last first.
  { apply process_field_required with (default := VMissing); try done.
    simpl. unfold Fields.load_default. by rewrite Hdefault. }
  rewrite insert_empty.
  destruct all_errors; simpl; by rewrite map_size_singleton.
Qed.

Lemma _process_many_load self items all_errors :
  Catalyst._process_many self "load" (VList items) all_errors
  = '(valid, errors, invalid) ←
      Catalyst.process_items
        (λ item, Catalyst._process_flow self "load" false item (Some false)
                   (Some all_errors))
        all_errors 0 items ([], ∅, ∅);
    Ok (VList valid, VDict errors, VDict invalid).
Proof. reflexivity. Qed.

(** C5: a batch load runs, on every item and in order, the single-item
    flow [_process_flow(name, False, item, False, all_errors)].
    - Collecting all errors, the valid data of the items come out in
      order, and [errors] and [invalid_data] hold, under the index of each
      item whose result is not valid, the errors and invalid data of that
      result, and nothing else.
    - Failing fast, the run stops at the first item whose result is not
      valid: nothing after it is processed, and [errors] and
      [invalid_data] hold that index only.
    - For a schema that requires one field with key ["a"],
      [load_many([{"a": 1}, {}])] gives errors under index 1 only, and the
      valid data of item 0 are those of loading it alone. *)
Theorem batch_load_is_indexed self :
  (∀ items results,
     Forall2 (λ item result,
                Catalyst._process_flow self "load" false item (Some false) (Some true)
                = Ok result) items results →
     ∃ errors invalid,
       Catalyst._process_many self "load" (VList items) true
       = Ok (VList (valid_data <$> results), VDict errors, VDict invalid) ∧
       ∀ k, errors !! k
            = match k with
              | KInt i => results !! i ≫= λ result,
                  if is_valid result then None else Some (Utils.errors result)
              | _ => None
              end ∧
            invalid !! k
            = match k with
              | KInt i => results !! i ≫= λ result,
                  if is_valid result then None else Some (invalid_data result)
              | _ => None
              end) ∧
  (∀ items1 item items2 results1 result,
     Forall2 (λ item result,
                Catalyst._process_flow self "load" false item (Some false) (Some false)
                = Ok result ∧ is_valid result = true) items1 results1 →
     Catalyst._process_flow self "load" false item (Some false) (Some false)
     = Ok result →
     is_valid result = false →
     Catalyst._process_many self "load" (VList (items1 ++ item :: items2)) false
     = Ok (VList ((valid_data <$> results1) ++ [valid_data result]),
           VDict {[ KInt (length items1) := Utils.errors result ]},
           VDict {[ KInt (length items1) := invalid_data result ]})) ∧
  (∀ attr field v raise_error all_errors,
     Catalyst.inherits_BaseCatalyst self →
     Catalyst._load_field_dict self = [(attr, field)] →
     Fields.key field = Some "a" →
     Fields.Options.load_required (Fields.opts field) = true →
     Fields.Options.load_default (Fields.opts field) = Fields.Plain VMissing →
     Catalyst.call_method (Catalyst.Options.load_method (Catalyst.opts self))
       field (VInt 1) = Ok v →
     OptionBox_get (Catalyst.Options.raise_error (Catalyst.opts self)) raise_error
     = false →
     Catalyst.load_many self
       (VList [VDict {[ KStr "a" := VInt 1 ]}; VDict ∅]) raise_error all_errors
     = Ok (VResult LoadResult
             (VList [VDict {[ Catalyst.of_attr (Fields.name field) := v ]}; VDict ∅])
             (VDict {[ KInt 1 := VDict {[ KStr "a"
                                          := Fields.get_error field "required" ]} ]})
             (VDict {[ KInt 1 := VDict ∅ ]}))).
Proof.
  split; [| split].
  - intros items results H. rewrite _process_many_load.
    destruct (process_items_collect _ 0 items results [] ∅ ∅ H)
      as (errors & invalid & Hrun & Hlookup).
    rewrite Hrun. simpl. exists errors, invalid. split; [done |].
    intros k. destruct (Hlookup k) as [-> ->].
    unfold Catalyst.indexed. destruct k as [| |i]; try done.
    rewrite Nat.sub_0_r. destruct (decide (0 ≤ i)); [| lia].
    destruct (results !! i) as [r|]; simpl; [| done].
    by destruct (is_valid r).
  - intros items1 item items2 results1 result H Hflow Hinvalid.
    rewrite _process_many_load.
    rewrite (process_items_fail_fast _ 0 items1 item items2 results1 result
               [] ∅ ∅ H Hflow Hinvalid).
    simpl. by rewrite !insert_empty.
  - intros attr field v raise_error all_errors Hself Hregistry Hkey Hrequired
      Hdefault Hcall Hraise.
    rewrite (load_many_inherited _ _ _ _ (proj1 Hself)), _process_many_load, Hraise.
    set (all := OptionBox_get _ all_errors).
    cbn [Catalyst.process_items].
    rewrite (load_one_present self attr field (KStr "a") (VInt 1) v all);
      [| done | done | by rewrite Hkey | done | done | done].
    simpl mbind. cbn beta iota.
    change (is_valid (VResult LoadResult ?a VNone VNone)) with true.
    cbn [negb].
    pose proof (load_one_missing self attr field all Hself Hregistry Hrequired
                  Hdefault) as Hmissing.
    unfold Catalyst._process_flow in Hmissing. rewrite Hmissing, Hkey.
    simpl Catalyst.of_attr. simpl mbind. cbn beta iota.
    unfold is_valid. simpl Utils.errors. simpl valid_data. simpl invalid_data.
    rewrite <- (insert_empty (KStr "a")), truthy_VDict_insert. cbn [negb].
    assert (truthy (VDict (<[KInt 1 := VDict (<[KStr "a"
              := Fields.get_error field "required"]> ∅)]> ∅)) = true) as Ht
      by apply truthy_VDict_insert.
    destruct (negb all); cbn [mbind res_bind]; rewrite Ht; by rewrite !insert_empty.
Qed.
End batch_load.

(* ===================================================================== *)
(** ** Dumping, then loading *)
(* ===================================================================== *)

Section round_trip.
Implicit Types (self : Catalyst.BaseCatalyst) (field : Fields.Field).

(** A run in which the transform of every field returns: nothing is
    recorded in [errors] or [invalid_data], and [valid_data] holds the
    results under the targets and nothing else. *)
Lemma process_fields_all_stored d get_value data all_errors fields :
  NoDup (Catalyst.target d <$> fields) →
  (∀ f, f ∈ fields →
     ∃ default v,
       Catalyst.default_attr d f = Ok default ∧
       is_missing (get_value data (Catalyst.source d f) default) = false ∧
       Catalyst.call_method (Catalyst.method_name d) f
         (get_value data (Catalyst.source d f) default) = Ok v) →
  ∃ valid,
    Catalyst.process_fields d get_value data all_errors fields (∅, ∅, ∅)
    = Ok (valid, ∅, ∅) ∧
    (∀ f default v,
       f ∈ fields →
       Catalyst.default_attr d f = Ok default →
       Catalyst.call_method (Catalyst.method_name d) f
         (get_value data (Catalyst.source d f) default) = Ok v →
       valid !! Catalyst.target d f = Some v) ∧
    (∀ k, (∀ f, f ∈ fields → Catalyst.target d f ≠ k) → valid !! k = None).
Proof.
  intros Hnodup Hall.
  assert (Forall (λ f, Catalyst.field_passes d get_value data f = true) fields)
    as Hpass.
  { apply Forall_forall. intros f Hf.
    destruct (Hall f Hf) as (default & v & Hd & Hm & Hc).
    unfold Catalyst.field_passes. rewrite Hd. cbn zeta. by rewrite Hm, Hc. }
  destruct (process_fields_pass d get_value data all_errors fields ∅ ∅ ∅ Hpass)
    as [valid Hl].
  exists valid. split; [done |]. split.
  - intros f default v Hf Hd Hc.
    destruct (Hall f Hf) as (default' & v' & Hd' & Hm & _).
    assert (default' = default) as -> by congruence.
    eapply process_fields_stores; try done. by right.
  - intros k Hk.
    destruct (process_fields_frame _ _ _ _ _ _ _ _ _ _ _ Hl) as (Hv & _).
    rewrite Hv; [done |]. by apply Forall_forall.
Qed.

(** C8: take a schema that inherits the side effects and getters of
    [BaseCatalyst], that dumps and loads the same fields, with pairwise
    distinct keys and pairwise distinct names.  Let [x] be a mapping that
    holds exactly the names of these fields, such that on every value the
    dump transform of its field returns an object from which the load
    transform gives the value back (neither is [missing], and callable
    defaults return).  Then dumping [x] and loading the valid data of the
    result gives a valid result whose valid data are [x]. *)
Theorem dump_then_load self (x : gmap pykey value)
    raise_error all_errors raise_error' all_errors' :
  Catalyst.inherits_BaseCatalyst self →
  let dumped_fields := odict_values (Catalyst._dump_field_dict self) in
  let loaded_fields := odict_values (Catalyst._load_field_dict self) in
  (∀ field, field ∈ loaded_fields ↔ field ∈ dumped_fields) →
  NoDup ((λ field, Catalyst.of_attr (Fields.key field)) <$> dumped_fields) →
  NoDup ((λ field, Catalyst.of_attr (Fields.name field)) <$> loaded_fields) →
  (∀ k, is_Some (x !! k)
        ↔ ∃ field, field ∈ dumped_fields ∧ Catalyst.of_attr (Fields.name field) = k) →
  (∀ field v,
     field ∈ dumped_fields →
     x !! Catalyst.of_attr (Fields.name field) = Some v →
     is_missing v = false ∧
     returns (Fields.dump_default field) = true ∧
     returns (Fields.load_default field) = true ∧
     ∃ w,
       Catalyst.call_method (Catalyst.Options.dump_method (Catalyst.opts self))
         field v = Ok w ∧
       is_missing w = false ∧
       Catalyst.call_method (Catalyst.Options.load_method (Catalyst.opts self))
         field w = Ok v) →
  ∃ dumped loaded,
    Catalyst.dump self (VDict x) raise_error all_errors = Ok dumped ∧
    Catalyst.load self (valid_data dumped) raise_error' all_errors' = Ok loaded ∧
    is_valid dumped = true ∧
    is_valid loaded = true ∧
    valid_data loaded = VDict x.
Proof.
  intros (Hs & Hgd & Hgl) dumped_fields loaded_fields Hsame Hkeys Hnames Hdom Hfields.
  (* every field has a value in x *)
  assert (∀ field, field ∈ dumped_fields →
            ∃ v, x !! Catalyst.of_attr (Fields.name field) = Some v) as Hvalue.
  { intros field Hin. apply Hdom. by exists field. }
  (* dumping *)
  destruct (process_fields_all_stored (Catalyst.dump_direction self)
              get_attr_or_item (VDict x)
              (OptionBox_get (Catalyst.Options.all_errors (Catalyst.opts self))
                 all_errors)
              dumped_fields Hkeys) as (valid_d & Hrun_d & Hstored_d & _).
  { intros f Hin. destruct (Hvalue f Hin) as [v Hv].
    destruct (Hfields f v Hin Hv) as (Hm & Hdd & _ & w & Hw & _).
    destruct (Fields.dump_default f) as [default|] eqn:Hdefault; [| done].
    exists default, w. split; [done |].
    unfold get_attr_or_item, Catalyst.source. simpl Catalyst.source_attr.
    by rewrite Hv. }
  (* loading what was dumped *)
  destruct (process_fields_all_stored (Catalyst.load_direction self)
              get_item (VDict valid_d)
              (OptionBox_get (Catalyst.Options.all_errors (Catalyst.opts self))
                 all_errors')
              loaded_fields Hnames) as (valid_l & Hrun_l & Hstored_l & Hframe_l).
  { intros f Hin. apply Hsame in Hin. destruct (Hvalue f Hin) as [v Hv].
    destruct (Hfields f v Hin Hv) as (Hm & Hdd & Hld & w & Hw & Hmw & Hback).
    destruct (Fields.dump_default f) as [default_d|] eqn:Hdefault_d; [| done].
    destruct (Fields.load_default f) as [default|] eqn:Hdefault; [| done].
    assert (valid_d !! Catalyst.of_attr (Fields.key f) = Some w) as Hd.
    { apply (Hstored_d f default_d w Hin Hdefault_d).
      unfold get_attr_or_item, Catalyst.source. simpl Catalyst.source_attr.
      by rewrite Hv. }
    exists default, v. split; [done |].
    unfold get_item, Catalyst.source. simpl Catalyst.source_attr.
    by rewrite Hd. }
  exists (VResult DumpResult (VDict valid_d) VNone VNone),
         (VResult LoadResult (VDict valid_l) VNone VNone).
  split; [| split; [| split; [done | split; [done |]]]].
  - rewrite (dump_inherited _ _ _ _ Hs), _process_one_dump, Hgd.
    change (assign_attr_or_item_getter _) with get_attr_or_item.
    fold dumped_fields. by rewrite Hrun_d.
  - simpl valid_data.
    rewrite (load_inherited _ _ _ _ Hs), _process_one_load, Hgl.
    change (assign_item_getter _) with get_item.
    fold loaded_fields. by rewrite Hrun_l.
  - simpl. f_equal. apply map_eq. intros k.
    destruct (x !! k) as [v|] eqn:Hk.
    + assert (is_Some (x !! k)) as Hsome by (by rewrite Hk).
      apply Hdom in Hsome as (f & Hin & <-).
      destruct (Hfields f v Hin Hk) as (Hm & Hdd & Hld & w & Hw & Hmw & Hback).
      destruct (Fields.dump_default f) as [default_d|] eqn:Hdefault_d; [| done].
      destruct (Fields.load_default f) as [default|] eqn:Hdefault; [| done].
      assert (valid_d !! Catalyst.of_attr (Fields.key f) = Some w) as Hd.
      { apply (Hstored_d f default_d w Hin Hdefault_d).
        unfold get_attr_or_item, Catalyst.source. simpl Catalyst.source_attr.
        by rewrite Hk. }
      apply (Hstored_l f default v); [by apply Hsame | done |].
      unfold get_item, Catalyst.source. simpl Catalyst.source_attr.
      by rewrite Hd.
    + apply Hframe_l. intros f Hin Heq. apply Hsame in Hin.
      assert (is_Some (x !! k)) as [? ?] by (apply Hdom; by exists f).
      congruence.
Qed.
End round_trip.

(* ===================================================================== *)
(** ** Construction: [__init__] *)
(* ===================================================================== *)

Section construction_properties.
Context (set_order : list string → list string).
Implicit Types (cls : Catalyst.CatalystClass) (opts : Catalyst.Options.t).

Lemma check_methods_spec opts :
  Catalyst.check_methods opts
  = if bool_decide (Catalyst.Options.dump_method opts ∈ Catalyst.dump_methods)
    then
      if bool_decide (Catalyst.Options.load_method opts ∈ Catalyst.load_methods)
      then Ok ()
      else Raise (VExc ValueError
             (VStr "Argument `method` must be in ('load', 'parse', 'validate')."))
    else Raise (VExc ValueError
           (VStr "Argument `method` must be in ('dump', 'format', 'validate').")).
Proof.
  unfold Catalyst.check_methods.
  destruct (bool_decide (_ ∈ Catalyst.dump_methods)); simpl; [| done].
  by destruct (bool_decide (_ ∈ Catalyst.load_methods)).
Qed.

(** A schema that was constructed has methods that passed the checks. *)
Lemma constructed_methods_are_valid cls schema fields raise_error all_errors
    dump_fields dump_method load_fields load_method self :
  Catalyst.__init__ set_order cls schema fields raise_error all_errors
    dump_fields dump_method load_fields load_method = Ok self →
  Catalyst.Options.dump_method (Catalyst.opts self) ∈ Catalyst.dump_methods ∧
  Catalyst.Options.load_method (Catalyst.opts self) ∈ Catalyst.load_methods.
Proof.
  unfold Catalyst.__init__, Catalyst.init_registries.
  destruct (Catalyst.own_field_dict _ _ _) as [fd|]; [simpl | done].
  destruct (Catalyst.copy_registries _ _ _ _ _) as [[dfd lfd]|]; [simpl | done].
  rewrite check_methods_spec.
  destruct (bool_decide (_ ∈ Catalyst.dump_methods)) eqn:Hd; [| done].
  destruct (bool_decide (_ ∈ Catalyst.load_methods)) eqn:Hl; [| done].
  simpl. intros [= <-]. simpl.
  by apply bool_decide_eq_true in Hd, Hl.
Qed.

(** C9: take a construction that reaches the option box, that is, whose
    field registries are built (every requested field name is declared).
    The effective options are those of [make_Options]: the argument when it
    is given, the class-level option otherwise.  If the effective
    [dump_method] is not one of ['dump'], ['format'], ['validate'], or the
    effective [load_method] is not one of ['load'], ['parse'],
    ['validate'], the constructor raises a [ValueError]; otherwise it
    returns the instance, with these options. *)
Theorem init_checks_methods cls schema fields raise_error all_errors
    dump_fields dump_method load_fields load_method self_field_dict registries :
  Catalyst.own_field_dict set_order cls schema = Ok self_field_dict →
  Catalyst.copy_registries set_order self_field_dict fields dump_fields load_fields
  = Ok registries →
  let opts :=
    Catalyst.make_Options cls raise_error all_errors dump_method load_method in
  let construct :=
    Catalyst.__init__ set_order cls schema fields raise_error all_errors
      dump_fields dump_method load_fields load_method in
  (Catalyst.Options.dump_method opts ∉ Catalyst.dump_methods ∨
   Catalyst.Options.load_method opts ∉ Catalyst.load_methods →
   ∃ message, construct = Raise (VExc ValueError message)) ∧
  (Catalyst.Options.dump_method opts ∈ Catalyst.dump_methods →
   Catalyst.Options.load_method opts ∈ Catalyst.load_methods →
   ∃ self, construct = Ok self ∧ Catalyst.opts self = opts).
Proof.
  intros Hown Hcopy opts construct.
  unfold construct, Catalyst.__init__, Catalyst.init_registries.
  rewrite Hown. simpl. rewrite Hcopy. destruct registries as [dfd lfd]. simpl.
  fold opts. rewrite check_methods_spec.
  split.
  - intros Hbad.
    destruct (bool_decide (_ ∈ Catalyst.dump_methods)) eqn:Hd; [| by eexists].
    destruct (bool_decide (_ ∈ Catalyst.load_methods)) eqn:Hl; [| by eexists].
    apply bool_decide_eq_true in Hd, Hl. by destruct Hbad.
  - intros Hd Hl.
    rewrite (bool_decide_eq_true_2 _ Hd), (bool_decide_eq_true_2 _ Hl). simpl.
    by eexists.
Qed.
End construction_properties.

(* ===================================================================== *)
(** ** The statements on the example schemas *)
(* ===================================================================== *)



Lemma required_field_missing_witness :
  ∃ result,
    Catalyst.load Examples.schema_a (VDict ∅) None None = Ok result ∧
    is_valid result = false ∧
    errors result
    = VDict {[ KStr "a" := VExc ValidationError
                 (VStr "Missing data for required field.") ]}.
Proof.
  apply (required_field_missing Examples.schema_a []
           (Examples.required_field "a" "a") [] None None).
  - repeat split.
  - reflexivity.
  - reflexivity.
  - reflexivity.
  - constructor.
  - reflexivity.
Defined.

Lemma two_failing_fields_witness :
  (∃ valid errors invalid,
     Catalyst.load Examples.schema_ab (VDict ∅) None (Some true)
     = Ok (VResult LoadResult valid (VDict errors) invalid) ∧
     size errors = 2) ∧
  (∃ valid errors invalid,
     Catalyst.load Examples.schema_ab (VDict ∅) None (Some false)
     = Ok (VResult LoadResult valid (VDict errors) invalid) ∧
     size errors = 1 ∧
     is_Some (errors !! KStr "a")).
Proof.
  apply (two_failing_fields Examples.schema_ab
           "a" (Examples.required_field "a" "a")
           "b" (Examples.required_field "b" "b") (VDict ∅) None).
  - repeat split.
  - reflexivity.
  - discriminate.
  - vm_compute. reflexivity.
  - vm_compute. reflexivity.
  - reflexivity.
Defined.

Lemma batch_load_is_indexed_witness :
  Catalyst.load_many Examples.schema_a
    (VList [VDict {[ KStr "a" := VInt 1 ]}; VDict ∅]) None None
  = Ok (VResult LoadResult
          (VList [VDict {[ KStr "a" := VInt 1 ]}; VDict ∅])
          (VDict {[ KInt 1 := VDict {[ KStr "a" := VExc ValidationError
                                         (VStr "Missing data for required field.") ]} ]})
          (VDict {[ KInt 1 := VDict ∅ ]})).
Proof.
  apply (proj2 (proj2 (batch_load_is_indexed Examples.schema_a))
           "a" (Examples.required_field "a" "a") (VInt 1) None None).
  - repeat split.
  - reflexivity.
  - reflexivity.
  - reflexivity.
  - reflexivity.
  - reflexivity.
  - reflexivity.
Defined.

Lemma dump_then_load_witness :
  ∃ dumped loaded,
    Catalyst.dump Examples.schema_title (VDict {[ KStr "title" := VStr "news" ]})
      None None = Ok dumped ∧
    Catalyst.load Examples.schema_title (valid_data dumped) None None = Ok loaded ∧
    is_valid dumped = true ∧
    is_valid loaded = true ∧
    valid_data loaded = VDict {[ KStr "title" := VStr "news" ]}.
Proof.
  apply (dump_then_load Examples.schema_title {[ KStr "title" := VStr "news" ]}
           None None None None).
  - repeat split.
  - done.
  - apply NoDup_singleton.
  - apply NoDup_singleton.
  - intros k. simpl. split.
    + intros [v [<- _]%lookup_singleton_Some].
      exists Examples.title_field. split; [apply list_elem_of_here | reflexivity].
    + intros (field & ->%list_elem_of_singleton & <-).
      exists (VStr "news"). apply lookup_singleton_eq.
  - simpl. intros field v ->%list_elem_of_singleton [_ <-]%lookup_singleton_Some.
    repeat split. exists (VStr "news"). repeat split.
Defined.

Lemma init_checks_methods_witness :
  (∃ message,
     Catalyst.__init__ (λ l, l) Examples.class_a None None None None
       None (Some "json") None None = Raise (VExc ValueError message)) ∧
  (∃ self,
     Catalyst.__init__ (λ l, l) Examples.class_a None None None None
       None (Some "validate") None None = Ok self ∧
     Catalyst.opts self
     = Catalyst.make_Options Examples.class_a None None (Some "validate") None).
Proof.
  split.
  - apply (proj1 (init_checks_methods (λ l, l) Examples.class_a None None None None
                    None (Some "json") None None
                    [("a", Examples.required_field "a" "a")]
                    ([("a", Examples.required_field "a" "a")],
                     [("a", Examples.required_field "a" "a")])
                    eq_refl eq_refl)).
    left. simpl. by apply (bool_decide_eq_false_1 ("json" ∈ Catalyst.dump_methods)).
  - apply (proj2 (init_checks_methods (λ l, l) Examples.class_a None None None None
                    None (Some "validate") None None
                    [("a", Examples.required_field "a" "a")]
                    ([("a", Examples.required_field "a" "a")],
                     [("a", Examples.required_field "a" "a")])
                    eq_refl eq_refl)).
    + simpl. by apply (bool_decide_eq_true_1 ("validate" ∈ Catalyst.dump_methods)).
    + simpl. by apply (bool_decide_eq_true_1 ("load" ∈ Catalyst.load_methods)).
Defined.


(* ===================================================================== *)
(** ** More on fields: validators, [ListField], [BoolField] *)
(* ===================================================================== *)

Section more_field_properties.
Implicit Types (self item : Fields.Field) (v w : value).
Implicit Types (vs : list Fields.ValidatorType).

Lemma run_validators_app vs1 vs2 v :
  Fields.run_validators (vs1 ++ vs2) v
  = _ ← Fields.run_validators vs1 v; Fields.run_validators vs2 v.
Proof.
  induction vs1 as [|validator vs1 IH]; [done |].
  simpl. destruct (validator v); simpl; [apply IH | done].
Qed.

Lemma run_validators_returns vs v :
  Fields.run_validators vs v = Ok () ↔ Forall (λ validator, returns (validator v) = true) vs.
Proof.
  induction vs as [|validator vs IH]; simpl.
  - split; [constructor | done].
  - destruct (validator v) as [x|e] eqn:Hv; simpl.
    + rewrite IH. split.
      * intros H. constructor; [by rewrite Hv | done].
      * by intros [_ H]%Forall_cons.
    + split; [done |]. intros [H _]%Forall_cons. by rewrite Hv in H.
Qed.

Lemma validate_not_None self v :
  is_None v = false →
  Fields.validate self v
  = _ ← Fields.run_validators (Fields.Options.validators (Fields.opts self)) v; Ok v.
Proof. intros H. unfold Fields.validate. by rewrite H. Qed.

Lemma validate_Ok_inv self v w : Fields.validate self v = Ok w → w = v.
Proof.
  unfold Fields.validate. destruct (is_None v) eqn:Hnone; simpl.
  - destruct v; try discriminate Hnone.
    destruct (Fields.Options.allow_none _); simpl; [congruence | discriminate].
  - destruct (Fields.run_validators _ v) as [[]|e]; simpl; congruence.
Qed.

(** X1: on a value that is not [None], [validate] returns (the value)
    exactly when every validator returns; otherwise it raises the
    exception of the first validator that raises, and the validators after
    that one have no say. *)
Theorem validators_run_in_order self v :
  is_None v = false →
  (Fields.validate self v = Ok v
   ↔ Forall (λ validator, returns (validator v) = true)
        (Fields.Options.validators (Fields.opts self))) ∧
  (∀ vs1 validator vs2 e,
     Fields.Options.validators (Fields.opts self) = vs1 ++ validator :: vs2 →
     Forall (λ validator, returns (validator v) = true) vs1 →
     validator v = Raise e →
     Fields.validate self v = Raise e).
Proof.
  intros Hnone. rewrite validate_not_None by done. split.
  - rewrite <- run_validators_returns.
    destruct (Fields.run_validators _ v) as [[]|e]; simpl; split; done.
  - intros vs1 validator vs2 e -> Hvs1 Hraise.
    rewrite run_validators_app.
    apply run_validators_returns in Hvs1. rewrite Hvs1. simpl.
    by rewrite Hraise.
Qed.

(** X2: [add_validator] makes validation stricter and nothing else: the
    field with one more validator accepts a value that is not [None]
    exactly when the field accepts it and the new validator returns; an
    exception that the field raised is still the one raised; [None] is
    treated as before. *)
Theorem add_validator_is_stricter self validator v :
  (is_None v = false →
   (Fields.validate (Fields.add_validator self validator) v = Ok v
    ↔ Fields.validate self v = Ok v ∧ returns (validator v) = true) ∧
   (∀ e, Fields.validate self v = Raise e →
         Fields.validate (Fields.add_validator self validator) v = Raise e)) ∧
  Fields.validate (Fields.add_validator self validator) VNone
  = Fields.validate self VNone.
Proof.
  split; [| done].
  intros Hnone. rewrite !validate_not_None by done. simpl.
  rewrite run_validators_app. simpl.
  destruct (Fields.run_validators _ v) as [[]|e]; simpl.
  - destruct (validator v); simpl; split; try done.
    split; [done | by intros [_ ?]].
  - split; [| done]. split; [done | by intros [? _]].
Qed.

(** X3: [load] validates what the parser returned and returns it; [dump]
    validates the raw value and returns what the formatter returned. *)
Theorem load_and_dump_compose self v w :
  (Fields.load self v = Ok w
   ↔ Fields.parse self v = Ok w ∧ Fields.validate self w = Ok w) ∧
  (Fields.dump self v = Ok w
   ↔ Fields.validate self v = Ok v ∧ Fields.format self v = Ok w).
Proof.
  unfold Fields.load, Fields.dump. split.
  - destruct (Fields.parse self v) as [w'|e]; simpl; [| split; [done | by intros []]].
    destruct (Fields.validate self w') as [x|e] eqn:Hv; simpl.
    + apply validate_Ok_inv in Hv as Hx. subst x. split.
      * by intros [= ->].
      * by intros [[= ->] _].
    + split; [done |]. intros [[= ->] H]. congruence.
  - destruct (Fields.validate self v) as [x|e] eqn:Hv; simpl.
    + apply validate_Ok_inv in Hv as Hx. subst x.
      destruct (Fields.format self v); simpl; split; try done.
      * by intros [_ ?].
      * by intros [_ ?].
    + split; [done | by intros [? _]].
Qed.
End more_field_properties.

Lemma validators_run_in_order_witness :
  Fields.validate Examples.digit_field (VInt 12)
  = Raise (VExc ValidationError (VStr "too large")).
Proof.
  apply (proj2 (validators_run_in_order Examples.digit_field (VInt 12) eq_refl)
           [Examples.not_negative] Examples.one_digit []).
  - reflexivity.
  - repeat constructor.
  - reflexivity.
Defined.

Lemma add_validator_is_stricter_witness :
  Fields.validate (Fields.add_validator Examples.natural_field Examples.one_digit)
    (VInt 7) = Ok (VInt 7).
Proof.
  apply (proj1 (proj1 (add_validator_is_stricter Examples.natural_field
                         Examples.one_digit (VInt 7)) eq_refl)).
  split; reflexivity.
Defined.

Section list_field.
Implicit Types (item : Fields.Field) (f : value → res value).
Implicit Types (items vs : list value).

Lemma comprehension_Ok f items vs :
  Fields.comprehension f items = Ok vs ↔ Forall2 (λ x y, f x = Ok y) items vs.
Proof.
  revert vs. induction items as [|x items IH]; intros vs; simpl.
  - split; [intros [= <-]; constructor | by intros ->%Forall2_nil_inv_l].
  - destruct (f x) as [y|e] eqn:Hx; simpl.
    + destruct (Fields.comprehension f items) as [ys|e] eqn:Hc; simpl.
      * split.
        -- intros [= <-]. constructor; [done | by apply IH].
        -- intros (y' & ys' & Hy & Hys & ->)%Forall2_cons_inv_l.
           apply IH in Hys. congruence.
      * split; [done |].
        intros (y' & ys' & Hy & Hys & ->)%Forall2_cons_inv_l.
        apply IH in Hys. congruence.
    + split; [done |].
      intros (y' & ys' & Hy & Hys & ->)%Forall2_cons_inv_l. congruence.
Qed.

Lemma comprehension_Raise f items1 x items2 e :
  Forall (λ y, returns (f y) = true) items1 →
  f x = Raise e →
  Fields.comprehension f (items1 ++ x :: items2) = Raise e.
Proof.
  intros H Hx. induction H as [|y items1 Hy _ IH]; simpl.
  - by rewrite Hx.
  - destruct (f y); [simpl | done]. by rewrite IH.
Qed.


(** X4: a [ListField] without validators loads a list into the list of
    what its item field loads, item by item, and dumps it likewise; it
    returns exactly when the item field returns on every item.  When the
    item field raises on an item, and returned on the items before it, the
    list field raises that exception: there is no partial list. *)
Theorem ListField_maps_its_item_field item name key items :
  let self := Fields.ListField item name key None in
  (∀ vs, Fields.load self (VList items) = Ok (VList vs)
         ↔ Forall2 (λ x y, Fields.load item x = Ok y) items vs) ∧
  (∀ vs, Fields.dump self (VList items) = Ok (VList vs)
         ↔ Forall2 (λ x y, Fields.dump item x = Ok y) items vs) ∧
  (∀ items1 x items2 e,
     items = items1 ++ x :: items2 →
     (Forall (λ y, returns (Fields.load item y) = true) items1 →
      Fields.load item x = Raise e →
      Fields.load self (VList items) = Raise e) ∧
     (Forall (λ y, returns (Fields.dump item y) = true) items1 →
      Fields.dump item x = Raise e →
      Fields.dump self (VList items) = Raise e)).
Proof.
  intros self.
  assert (Fields.load self (VList items)
          = vs ← Fields.comprehension (Fields.load item) items; Ok (VList vs)) as Hload.
  { set (f := Fields.load item). unfold Fields.load, Fields.parse. simpl.
    fold f. by destruct (Fields.comprehension f items). }
  assert (Fields.dump self (VList items)
          = vs ← Fields.comprehension (Fields.dump item) items; Ok (VList vs)) as Hdump.
  { set (f := Fields.dump item). unfold Fields.dump, Fields.format. simpl.
    fold f. by destruct (Fields.comprehension f items). }
  rewrite Hload, Hdump. clear Hload Hdump. split; [| split].
  - intros vs. rewrite <- comprehension_Ok.
    destruct (Fields.comprehension _ items); simpl; split; intros [= ?]; by subst.
  - intros vs. rewrite <- comprehension_Ok.
    destruct (Fields.comprehension _ items); simpl; split; intros [= ?]; by subst.
  - intros items1 x items2 e ->. split; intros H Hx;
      by rewrite (comprehension_Raise _ _ _ _ _ H Hx).
Qed.

End list_field.

Section bool_field.
Implicit Types (v : value) (s : string).

Lemma BoolField_load_dump value_map name key v :
  is_None v = false →
  Fields.load (Fields.BoolField value_map name key None None) v
  = Fields.BoolField_parser
      (Fields.reverse_value_map (OptionBox_get Fields.BoolField_value_map value_map)) v ∧
  Fields.dump (Fields.BoolField value_map name key None None) v
  = Fields.BoolField_parser
      (Fields.reverse_value_map (OptionBox_get Fields.BoolField_value_map value_map)) v.
Proof.
  intros Hnone. unfold Fields.load, Fields.dump, Fields.parse, Fields.format,
    Fields.validate. simpl. rewrite Hnone. simpl. done.
Qed.

(** X6: take a [BoolField] without validators whose [value_map] has
    objects of the built-in hashable types as keys (as the default one
    has), and an object of a built-in type: a [bool], an [int], a [str], a
    [list] or a [dict].  Loading it and dumping it give a [bool], the same
    for both, and do not raise; loading or dumping that [bool] again gives
    it back.  [None] stays [None]. *)
Theorem BoolField_returns_a_bool value_map name key v :
  let self := Fields.BoolField value_map name key None None in
  Forall (λ entry, is_builtin_hashable entry.1 = true)
    (OptionBox_get Fields.BoolField_value_map value_map) →
  is_builtin_data v = true →
  (is_None v = false →
   ∃ b, Fields.load self v = Ok (VBool b) ∧
        Fields.dump self v = Ok (VBool b) ∧
        Fields.load self (VBool b) = Ok (VBool b) ∧
        Fields.dump self (VBool b) = Ok (VBool b)) ∧
  Fields.load self VNone = Ok VNone ∧
  Fields.dump self VNone = Ok VNone.
Proof.
  intros self _ _. split; [| done].
  intros Hnone.
  destruct (BoolField_load_dump value_map name key v Hnone) as [Hl Hd].
  destruct (BoolField_load_dump value_map name key (VBool (truthy
              match v with
              | VStr s => default v (Fields.reverse_value_map
                            (OptionBox_get Fields.BoolField_value_map value_map) !! s)
              | _ => v
              end)) eq_refl) as [Hl' Hd'].
  eexists. fold self in Hl, Hd, Hl', Hd'.
  rewrite Hl, Hd, Hl', Hd'. unfold Fields.BoolField_parser. simpl. done.
Qed.

Lemma default_reverse_value_map s :
  Fields.reverse_value_map Fields.BoolField_value_map !! s
  = if bool_decide (s ∈ Fields.false_tokens) then Some (VBool false)
    else if bool_decide (s ∈ Fields.true_tokens) then Some (VBool true)
    else None.
Proof.
  unfold Fields.reverse_value_map, Fields.BoolField_value_map. simpl.
  unfold Fields.false_tokens, Fields.true_tokens.
  repeat (rewrite lookup_insert; destruct (decide (_ = s)) as [<-|?];
          [vm_compute; reflexivity |]).
  rewrite lookup_empty.
  assert (∀ l : list string, Forall (λ t, t ≠ s) l → s ∉ l) as Hnotin.
  { intros l Hl Hin. by apply (proj1 (Forall_forall _ _) Hl s Hin). }
  rewrite !bool_decide_eq_false_2; [done | ..];
    apply Hnotin; unfold Fields.true_tokens, Fields.false_tokens;
    repeat constructor; done.
Qed.

(** X7: with the default [value_map], a [BoolField] loads the strings
    ["0"], ["n"], ["no"], ["false"], ["False"] to [False], the strings
    ["1"], ["y"], ["yes"], ["true"], ["True"] to [True], and any other
    string to whether it is not empty. *)
Theorem BoolField_default_tokens name key s :
  Fields.load (Fields.BoolField None name key None None) (VStr s)
  = Ok (VBool (if bool_decide (s ∈ Fields.false_tokens) then false
               else if bool_decide (s ∈ Fields.true_tokens) then true
               else negb (String.eqb s EmptyString))).
Proof.
  rewrite (proj1 (BoolField_load_dump None name key (VStr s) eq_refl)).
  unfold Fields.BoolField_parser. simpl OptionBox_get.
  rewrite default_reverse_value_map.
  destruct (bool_decide (s ∈ Fields.false_tokens)); [done |].
  by destruct (bool_decide (s ∈ Fields.true_tokens)).
Qed.
End bool_field.

Lemma BoolField_returns_a_bool_witness :
  ∃ b, Fields.load Examples.flag_field (VStr "no") = Ok (VBool b) ∧
       Fields.dump Examples.flag_field (VStr "no") = Ok (VBool b) ∧
       Fields.load Examples.flag_field (VBool b) = Ok (VBool b) ∧
       Fields.dump Examples.flag_field (VBool b) = Ok (VBool b).
Proof.
  apply (proj1 (BoolField_returns_a_bool None (Some "flag") (Some "flag") (VStr "no")
                  ltac:(repeat constructor) eq_refl)).
  reflexivity.
Defined.

(* ===================================================================== *)
(** ** Side effects and the direction name in [_process_flow] *)
(* ===================================================================== *)


Section side_effects.
Implicit Types (self : Catalyst.BaseCatalyst) (hook : Catalyst.method).

(** The name of the side effect that runs before ([prefix] is ["pre_"]) or
    after ([prefix] is ["post_"]) the processing. *)
Local Abbreviation side_effect_name prefix name many :=
  (prefix +:+ (if many : bool then name +:+ "_many" else name)).


Lemma result_class_of_name name :
  name = "dump" ∨ name = "load" →
  (if String.eqb name "dump" then Ok DumpResult
   else if String.eqb name "load" then Ok LoadResult
   else Raise (VExc ValueError (VStr "Argument `name` must be `dump` or `load`.")))
  = Ok (if String.eqb name "dump" then DumpResult else LoadResult).
Proof. by intros [-> | ->]. Qed.



(** X12: a direction name other than ['dump'] and ['load'] is refused with
    a [ValueError] before any side effect runs and before the data are
    looked at. *)
Theorem unknown_direction_name self name many data raise_error all_errors :
  name ≠ "dump" →
  name ≠ "load" →
  Catalyst._process_flow self name many data raise_error all_errors
  = Raise (VExc ValueError (VStr "Argument `name` must be `dump` or `load`.")).
Proof.
  intros Hd%String.eqb_neq Hl%String.eqb_neq.
  unfold Catalyst._process_flow, Catalyst.process_flow_with.
  rewrite Hd, Hl. by destruct many.
Qed.

(** With [raise_error] true, the flow raises what it returns with
    [raise_error] false when that result is not valid. *)
Lemma process_flow_with_raise_error handle self name method_name data all_errors :
  Catalyst.process_flow_with handle self name method_name data (Some true) all_errors
  = match Catalyst.process_flow_with handle self name method_name data
            (Some false) all_errors with
    | Ok result =>
        if is_valid result then Ok result
        else Raise (VExc ValidationError result)
    | Raise e => Raise e
    end.
Proof.
  unfold Catalyst.process_flow_with.
  destruct (if String.eqb name "dump" then _ else _) as [cls|]; [| done].
  cbn [mbind res_bind OptionBox_get].
  destruct (Catalyst._side_effect self _ data) as [[v0 e0] i0].
  destruct (truthy e0) eqn:Ht0; cbn [negb mbind res_bind].
  - repeat (first [rewrite Ht0 | progress cbn [negb andb]]).
    unfold is_valid. simpl. by rewrite Ht0.
  - destruct (handle name v0 _) as [[[v1 e1] i1]|]; [cbn [mbind res_bind] | done].
    destruct (truthy e1) eqn:Ht1; cbn [negb].
    + repeat (first [rewrite Ht1 | progress cbn [negb andb]]).
      unfold is_valid. simpl. by rewrite Ht1.
    + destruct (Catalyst._side_effect self _ v1) as [[v2 e2] i2].
      rewrite andb_false_r, andb_true_r. unfold is_valid. simpl.
      by destruct (truthy e2).
Qed.

Lemma process_flow_with_returns_a_result handle self name method_name data
    raise_error all_errors result :
  Catalyst.process_flow_with handle self name method_name data raise_error all_errors
  = Ok result →
  is_CatalystResult result = true.
Proof.
  unfold Catalyst.process_flow_with.
  destruct (if String.eqb name "dump" then _ else _) as [cls|]; [| done].
  cbn [mbind res_bind].
  destruct (Catalyst._side_effect self _ data) as [[v0 e0] i0].
  destruct (if negb (truthy e0) then _ else _) as [[[v1 e1] i1]|];
    [cbn [mbind res_bind] | done].
  destruct (if negb (truthy e1) then _ else _) as [[v2 e2] i2].
  destruct (truthy e2 && _); [done |]. by intros [= <-].
Qed.
End side_effects.



Lemma unknown_direction_name_witness :
  Catalyst._process_flow Examples.schema_a "parse" false (VDict ∅) None None
  = Raise (VExc ValueError (VStr "Argument `name` must be `dump` or `load`.")).
Proof.
  apply (unknown_direction_name Examples.schema_a "parse" false (VDict ∅) None None);
    discriminate.
Defined.

(* ===================================================================== *)
(** ** [NestedField] *)
(* ===================================================================== *)

Section nested_field.
Implicit Types (catalyst inner outer : Catalyst.BaseCatalyst) (v : value).

Lemma load_raise_error catalyst v all_errors :
  Catalyst.load catalyst v (Some true) all_errors
  = match Catalyst.load catalyst v (Some false) all_errors with
    | Ok result =>
        if is_valid result then Ok result
        else Raise (VExc ValidationError result)
    | Raise e => Raise e
    end.
Proof. apply process_flow_with_raise_error. Qed.

Lemma dump_raise_error catalyst v all_errors :
  Catalyst.dump catalyst v (Some true) all_errors
  = match Catalyst.dump catalyst v (Some false) all_errors with
    | Ok result =>
        if is_valid result then Ok result
        else Raise (VExc ValidationError result)
    | Raise e => Raise e
    end.
Proof. apply process_flow_with_raise_error. Qed.

Lemma NestedField_parse catalyst name key v :
  is_None v = false →
  Fields.parse (Catalyst.NestedField catalyst name key) v
  = match Catalyst.load catalyst v (Some false) None with
    | Ok result =>
        if is_valid result then Ok (valid_data result)
        else Raise (VExc ValidationError result)
    | Raise e => Raise e
    end.
Proof.
  intros Hnone. unfold Fields.parse. simpl. rewrite Hnone. simpl.
  rewrite load_raise_error.
  destruct (Catalyst.load catalyst v (Some false) None) as [result|]; [| done].
  by destruct (is_valid result).
Qed.

(** X8: on a value other than [None], the parser of a [NestedField] gives
    the valid data of the result of the wrapped schema's [load] when that
    result is valid; when it is not, it raises a [ValidationError] whose
    payload is that result, which is the shape that the loop of the outer
    schema takes for a nested failure.  The formatter does the same with
    [dump].  [None] is returned as it is, without the wrapped schema. *)
Theorem NestedField_delegates catalyst name key v :
  let self := Catalyst.NestedField catalyst name key in
  (is_None v = false →
   Fields.parse self v
   = match Catalyst.load catalyst v (Some false) None with
     | Ok result =>
         if is_valid result then Ok (valid_data result)
         else Raise (VExc ValidationError result)
     | Raise e => Raise e
     end ∧
   Fields.format self v
   = match Catalyst.dump catalyst v (Some false) None with
     | Ok result =>
         if is_valid result then Ok (valid_data result)
         else Raise (VExc ValidationError result)
     | Raise e => Raise e
     end) ∧
  (∀ result,
     Catalyst.load catalyst v (Some false) None = Ok result ∨
     Catalyst.dump catalyst v (Some false) None = Ok result →
     Catalyst.carries_result (VExc ValidationError result) = true) ∧
  Fields.parse self VNone = Ok VNone ∧
  Fields.format self VNone = Ok VNone.
Proof.
  intros self. split; [| split; [| done]].
  - intros Hnone. unfold Fields.parse, Fields.format. simpl. rewrite Hnone. simpl.
    rewrite load_raise_error, dump_raise_error. split.
    + destruct (Catalyst.load catalyst v (Some false) None) as [result|]; [| done].
      by destruct (is_valid result).
    + destruct (Catalyst.dump catalyst v (Some false) None) as [result|]; [| done].
      by destruct (is_valid result).
  - intros result [H | H];
      apply process_flow_with_returns_a_result in H;
      unfold Catalyst.carries_result; simpl; exact H.
Qed.

(** X9: take an outer schema that inherits the side effects and getters of
    [BaseCatalyst] and loads, with the method ['load'], one field: a
    [NestedField] around an inner schema.  When the inner [load] of the
    nested value gives a result that is not valid, the outer [load] gives
    the inner valid data under the name of the field, and the inner errors
    and the inner invalid data under its key. *)
Theorem nested_failure_is_spliced outer attr inner name key v result
    raise_error all_errors :
  Catalyst.inherits_BaseCatalyst outer →
  Catalyst._load_field_dict outer
  = [(attr, Catalyst.NestedField inner (Some name) (Some key))] →
  Catalyst.Options.load_method (Catalyst.opts outer) = "load" →
  is_None v = false →
  is_missing v = false →
  Catalyst.load inner v (Some false) None = Ok result →
  is_valid result = false →
  OptionBox_get (Catalyst.Options.raise_error (Catalyst.opts outer)) raise_error
  = false →
  Catalyst.load outer (VDict {[ KStr key := v ]}) raise_error all_errors
  = Ok (VResult LoadResult
          (VDict {[ KStr name := valid_data result ]})
          (VDict {[ KStr key := errors result ]})
          (VDict {[ KStr key := invalid_data result ]})).
Proof.
  intros (Hs & _ & Hg) Hregistry Hmethod Hnone Hmissing Hinner Hinvalid Hraise.
  rewrite (load_inherited _ _ _ _ Hs), _process_one_load, Hregistry, Hg, Hraise.
  cbn [odict_values fmap list_fmap snd].
  change (assign_item_getter _) with get_item.
  set (field := Catalyst.NestedField inner (Some name) (Some key)).
  assert (Fields.load field v = Raise (VExc ValidationError result)) as Hfail.
  { unfold Fields.load. subst field.
    rewrite (NestedField_parse inner (Some name) (Some key) v Hnone).
    by rewrite Hinner, Hinvalid. }
  assert (Catalyst.carries_result (VExc ValidationError result) = true) as Hcarries.
  { apply process_flow_with_returns_a_result in Hinner.
    unfold Catalyst.carries_result. simpl. exact Hinner. }
  erewrite process_fields_cons; last first.
  { apply process_field_raises with (default := VMissing)
                                     (e := VExc ValidationError result).
    - reflexivity.
    - unfold get_item. simpl. by rewrite lookup_singleton_eq.
    - unfold get_item. simpl. rewrite lookup_singleton_eq. simpl.
      rewrite Hmethod. exact Hfail. }
  rewrite Hcarries.
  change (Catalyst.source (Catalyst.load_direction outer) field) with (KStr key).
  change (Catalyst.target (Catalyst.load_direction outer) field) with (KStr name).
  change (msg (VExc ValidationError result)) with result.
  destruct (negb _); cbn [Catalyst.process_fields mbind res_bind];
    rewrite truthy_VDict_insert; by rewrite !insert_empty.
Qed.
End nested_field.

(* ===================================================================== *)
(** ** Invariants of the loop of [_process_one] *)
(* ===================================================================== *)

Lemma truthy_VDict_empty_iff (m : gmap pykey value) :
  truthy (VDict m) = false ↔ m = ∅.
Proof.
  simpl. rewrite negb_false_iff, Nat.eqb_eq. apply map_size_empty_iff.
Qed.

#[local] Set Warnings "-clear-no-such-hyp".

Section loop_invariants.
Context (d : Catalyst.direction) (get_value : getter) (data : value).
Implicit Types (field : Fields.Field) (fields : list Fields.Field).
Implicit Types (valid errors invalid : gmap pykey value).

Local Abbreviation step := (Catalyst.process_field d get_value data).
Local Abbreviation loop := (Catalyst.process_fields d get_value data).
Local Abbreviation source := (Catalyst.source d).
Local Abbreviation target := (Catalyst.target d).

(** What one iteration does to the three mappings. *)
Lemma process_field_cases all_errors field valid errors invalid
    valid' errors' invalid' break :
  step all_errors field (valid, errors, invalid)
  = Ok ((valid', errors', invalid'), break) →
  (errors' = errors ∧ invalid' = invalid ∧ break = false ∧
   (valid' = valid ∨ ∃ v, valid' = <[target field := v]> valid)) ∨
  (break = negb all_errors ∧
   (∃ e, errors' = <[source field := e]> errors) ∧
   (invalid' = invalid ∨ ∃ v, invalid' = <[source field := v]> invalid) ∧
   (valid' = valid ∨ ∃ v, valid' = <[target field := v]> valid)).
Proof.
  unfold Catalyst.process_field, Catalyst.source, Catalyst.target.
  destruct (Catalyst.default_attr d field) as [default|]; [| done].
  cbn [mbind res_bind].
  destruct (is_missing _).
  - destruct (Catalyst.required_attr d field); intros [= <- <- <- <-].
    + right. eauto 10.
    + left. eauto 10.
  - destruct (Catalyst.call_method _ _ _) as [v|e].
    + intros [= <- <- <- <-]. left. eauto 10.
    + destruct (Catalyst.carries_result e); intros [= <- <- <- <-];
        right; eauto 10.
Qed.

(** An iteration changes the mappings in the same way in both modes; the
    mode decides only whether the loop goes on after a failure. *)
Lemma process_field_mode all_errors all_errors' field acc acc' break :
  step all_errors field acc = Ok (acc', break) →
  ∃ break', step all_errors' field acc = Ok (acc', break').
Proof.
  destruct acc as [[valid errors] invalid].
  unfold Catalyst.process_field.
  destruct (Catalyst.default_attr d field) as [default|]; [| done].
  cbn [mbind res_bind].
  destruct (is_missing _).
  - destruct (Catalyst.required_attr d field); intros [= <- <-]; eauto.
  - destruct (Catalyst.call_method _ _ _) as [v|e]; intros [= <- <-]; eauto.
Qed.

Lemma process_fields_domains all_errors fields valid errors invalid
    valid' errors' invalid' :
  loop all_errors fields (valid, errors, invalid)
  = Ok (valid', errors', invalid') →
  dom errors ⊆ dom errors' ∧
  (dom invalid ⊆ dom errors → dom invalid' ⊆ dom errors') ∧
  (∀ k, k ∈ dom errors' →
        k ∈ dom errors ∨ ∃ field, field ∈ fields ∧ k = source field) ∧
  (∀ k, k ∈ dom valid' →
        k ∈ dom valid ∨ ∃ field, field ∈ fields ∧ k = target field).
Proof.
  revert valid errors invalid.
  induction fields as [|field fields IH]; intros valid errors invalid.
  { intros [= <- <- <-]. split; [done |]. split; [done |]. split; auto. }
  cbn [Catalyst.process_fields].
  destruct (step all_errors field (valid, errors, invalid))
    as [[[[valid1 errors1] invalid1] break]|] eqn:Hstep; [| done].
  cbn [mbind res_bind].
  assert (dom errors ⊆ dom errors1 ∧
          (dom invalid ⊆ dom errors → dom invalid1 ⊆ dom errors1) ∧
          (∀ k, k ∈ dom errors1 → k ∈ dom errors ∨ k = source field) ∧
          (∀ k, k ∈ dom valid1 → k ∈ dom valid ∨ k = target field))
    as (He & Hi & Hs & Ht).
  { apply process_field_cases in Hstep
      as [(-> & -> & _ & Hv) | (_ & [e ->] & Hi & Hv)].
    - split; [done |]. split; [done |]. split; [auto |].
      destruct Hv as [-> | [v ->]]; [auto |].
      intros k. rewrite dom_insert. set_solver.
    - split; [rewrite dom_insert; set_solver |].
      split; [| split].
      + destruct Hi as [-> | [v ->]]; rewrite ?dom_insert; set_solver.
      + intros k. rewrite dom_insert. set_solver.
      + destruct Hv as [-> | [v ->]]; [auto |].
        intros k. rewrite dom_insert. set_solver. }
  assert (∀ P : Fields.Field → Prop,
            P field → (∃ f, f ∈ field :: fields ∧ P f)) as Hhere.
  { intros P HP. exists field. split; [apply list_elem_of_here | done]. }
  assert (∀ P : Fields.Field → Prop,
            (∃ f, f ∈ fields ∧ P f) → (∃ f, f ∈ field :: fields ∧ P f)) as Hlater.
  { intros P (f & Hf & HP). exists f. split; [by apply list_elem_of_further | done]. }
  destruct break.
  - intros [= <- <- <-]. split; [done |]. split; [done |]. split.
    + intros k Hk. destruct (Hs k Hk) as [? | ->]; [by left | right].
      by apply (Hhere (fun f => source field = source f)).
    + intros k Hk. destruct (Ht k Hk) as [? | ->]; [by left | right].
      by apply (Hhere (fun f => target field = target f)).
  - intros Hloop. apply IH in Hloop as (He' & Hi' & Hs' & Ht').
    split; [set_solver |]. split; [auto |]. split.
    + intros k Hk. destruct (Hs' k Hk) as [Hk1 | Hk1].
      * destruct (Hs k Hk1) as [? | ->]; [by left | right].
        by apply (Hhere (fun f => source field = source f)).
      * right. by apply (Hlater (fun f => k = source f)).
    + intros k Hk. destruct (Ht' k Hk) as [Hk1 | Hk1].
      * destruct (Ht k Hk1) as [? | ->]; [by left | right].
        by apply (Hhere (fun f => target field = target f)).
      * right. by apply (Hlater (fun f => k = target f)).
Qed.

(** In the fail-fast mode the loop stops at the first error. *)
Lemma process_fields_fail_fast fields valid errors invalid valid' errors' invalid' :
  loop false fields (valid, errors, invalid) = Ok (valid', errors', invalid') →
  errors' = errors ∨ ∃ k e, errors' = <[k := e]> errors.
Proof.
  revert valid errors invalid.
  induction fields as [|field fields IH]; intros valid errors invalid.
  { intros [= <- <- <-]. by left. }
  cbn [Catalyst.process_fields].
  destruct (step false field (valid, errors, invalid))
    as [[[[valid1 errors1] invalid1] break]|] eqn:Hstep; [| done].
  cbn [mbind res_bind].
  apply process_field_cases in Hstep
    as [(-> & -> & -> & _) | (-> & [e ->] & _ & _)].
  - apply IH.
  - cbn [negb]. intros [= <- <- <-]. right. eauto.
Qed.

(** A run that ends without an error is the same run in both modes. *)
Lemma process_fields_mode all_errors all_errors' fields acc valid' invalid' :
  loop all_errors fields acc = Ok (valid', ∅, invalid') →
  loop all_errors' fields acc = Ok (valid', ∅, invalid').
Proof.
  revert acc. induction fields as [|field fields IH]; intros acc; [done |].
  destruct acc as [[valid errors] invalid].
  cbn [Catalyst.process_fields].
  destruct (step all_errors field (valid, errors, invalid))
    as [[[[valid1 errors1] invalid1] break]|] eqn:Hstep; [| done].
  cbn [mbind res_bind].
  destruct (process_field_mode all_errors all_errors' _ _ _ _ Hstep)
    as [break' Hstep'].
  rewrite Hstep'. cbn [mbind res_bind].
  intros Hloop.
  assert (errors1 = ∅) as ->.
  { destruct break.
    - by injection Hloop as _ -> _.
    - apply process_fields_domains in Hloop as (He & _).
      apply dom_empty_iff_L. rewrite dom_empty_L in He. set_solver. }
  apply process_field_cases in Hstep
    as [(_ & _ & -> & _) | (_ & [e He] & _ & _)];
    [| by symmetry in He; apply insert_non_empty in He].
  apply process_field_cases in Hstep'
    as [(_ & _ & -> & _) | (_ & [e He] & _ & _)];
    [| by symmetry in He; apply insert_non_empty in He].
  by apply IH.
Qed.
End loop_invariants.

Section single_item_invariants.
Implicit Types (self : Catalyst.BaseCatalyst).

(** X13: when [_process_one] returns, the three objects it returns are
    mappings; every key of [invalid_data] is a key of [errors]; every key
    of [errors] is the source key of a field of the registry of the
    direction, and every key of [valid_data] the target key of one. *)
Theorem process_one_keys self name data all_errors valid errors invalid :
  Catalyst._process_one self name data all_errors = Ok (valid, errors, invalid) →
  ∃ d v e i,
    Catalyst.select_direction self name = Ok d ∧
    valid = VDict v ∧ errors = VDict e ∧ invalid = VDict i ∧
    dom i ⊆ dom e ∧
    (∀ k, k ∈ dom e →
       ∃ field, field ∈ odict_values (Catalyst.field_dict d) ∧
                k = Catalyst.source d field) ∧
    (∀ k, k ∈ dom v →
       ∃ field, field ∈ odict_values (Catalyst.field_dict d) ∧
                k = Catalyst.target d field).
Proof.
  unfold Catalyst._process_one.
  destruct (Catalyst.select_direction self name) as [d|]; [| done].
  cbn [mbind res_bind].
  destruct (Catalyst.process_fields _ _ _ _ _ _) as [[[v e] i]|] eqn:Hloop; [| done].
  cbn [mbind res_bind]. intros [= <- <- <-].
  apply process_fields_domains in Hloop as (_ & Hi & He & Hv).
  exists d, v, e, i. split; [done |]. split; [done |]. split; [done |].
  split; [done |]. split; [by apply Hi |]. split.
  - intros k Hk. destruct (He k Hk) as [Hk' | ?]; [| done].
    by rewrite dom_empty_L in Hk'.
  - intros k Hk. destruct (Hv k Hk) as [Hk' | ?]; [| done].
    by rewrite dom_empty_L in Hk'.
Qed.

(** X14: in the fail-fast mode ([all_errors] false) [_process_one] returns
    at most one error. *)
Theorem process_one_fail_fast self name data valid errors invalid :
  Catalyst._process_one self name data false = Ok (valid, VDict errors, invalid) →
  size errors ≤ 1.
Proof.
  unfold Catalyst._process_one.
  destruct (Catalyst.select_direction self name) as [d|]; [| done].
  cbn [mbind res_bind].
  destruct (Catalyst.process_fields _ _ _ _ _ _) as [[[v e] i]|] eqn:Hloop; [| done].
  cbn [mbind res_bind]. intros [= <- <- <-].
  apply process_fields_fail_fast in Hloop as [-> | (k & x & ->)].
  - rewrite map_size_empty. lia.
  - rewrite insert_empty, map_size_singleton. lia.
Qed.

(** X15: a run of [_process_one] that ends without an error does not
    depend on the mode: with the other value of [all_errors] it returns
    the same three objects. *)
Theorem process_one_mode self name data all_errors all_errors'
    valid errors invalid :
  Catalyst._process_one self name data all_errors = Ok (valid, errors, invalid) →
  truthy errors = false →
  Catalyst._process_one self name data all_errors' = Ok (valid, errors, invalid).
Proof.
  unfold Catalyst._process_one.
  destruct (Catalyst.select_direction self name) as [d|]; [| done].
  cbn [mbind res_bind].
  destruct (Catalyst.process_fields _ _ _ all_errors _ _)
    as [[[v e] i]|] eqn:Hloop; [| done].
  cbn [mbind res_bind]. intros [= <- <- <-] He.
  apply truthy_VDict_empty_iff in He as ->.
  by rewrite (process_fields_mode _ _ _ all_errors all_errors' _ _ _ _ Hloop).
Qed.
End single_item_invariants.

Lemma ListField_maps_its_item_field_witness :
  Fields.load Examples.digits_field (VList [VInt 1; VInt 12; VInt 3])
  = Raise (VExc ValidationError (VStr "too large")).
Proof.
  apply (proj1 (proj2 (proj2 (ListField_maps_its_item_field Examples.digit_field
                                (Some "digits") (Some "digits")
                                [VInt 1; VInt 12; VInt 3]))
                  [VInt 1] (VInt 12) [VInt 3] _ eq_refl)).
  - repeat constructor.
  - reflexivity.
Defined.


Lemma NestedField_delegates_witness :
  Fields.parse Examples.profile_field (VDict ∅)
  = match Catalyst.load Examples.schema_a (VDict ∅) (Some false) None with
    | Ok result =>
        if is_valid result then Ok (valid_data result)
        else Raise (VExc ValidationError result)
    | Raise e => Raise e
    end.
Proof.
  apply (proj1 (proj1 (NestedField_delegates Examples.schema_a
                         (Some "profile") (Some "profile_data") (VDict ∅))
                  eq_refl)).
Defined.

Lemma nested_failure_is_spliced_witness :
  Catalyst.load Examples.schema_profile
    (VDict {[ KStr "profile_data" := VDict ∅ ]}) None None
  = Ok (VResult LoadResult
          (VDict {[ KStr "profile" := VDict ∅ ]})
          (VDict {[ KStr "profile_data" :=
                      VDict {[ KStr "a" :=
                                 Fields.get_error (Examples.required_field "a" "a")
                                   "required" ]} ]})
          (VDict {[ KStr "profile_data" := VDict ∅ ]})).
Proof.
  apply (nested_failure_is_spliced Examples.schema_profile "profile"
           Examples.schema_a "profile" "profile_data" (VDict ∅)
           (VResult LoadResult (VDict ∅)
              (VDict {[ KStr "a" :=
                          Fields.get_error (Examples.required_field "a" "a")
                            "required" ]})
              (VDict ∅)) None None).
  - repeat split.
  - reflexivity.
  - reflexivity.
  - reflexivity.
  - reflexivity.
  - vm_compute. reflexivity.
  - reflexivity.
  - reflexivity.
Defined.

Lemma process_one_keys_witness :
  ∃ d v e i,
    Catalyst.select_direction Examples.schema_ab "load" = Ok d ∧
    VDict ∅ = VDict v ∧
    VDict {[ KStr "a" := Fields.get_error (Examples.required_field "a" "a") "required";
             KStr "b" := Fields.get_error (Examples.required_field "b" "b") "required" ]}
    = VDict e ∧
    VDict ∅ = VDict i ∧
    dom i ⊆ dom e ∧
    (∀ k, k ∈ dom e →
       ∃ field, field ∈ odict_values (Catalyst.field_dict d) ∧
                k = Catalyst.source d field) ∧
    (∀ k, k ∈ dom v →
       ∃ field, field ∈ odict_values (Catalyst.field_dict d) ∧
                k = Catalyst.target d field).
Proof.
  apply (process_one_keys Examples.schema_ab "load" (VDict ∅) true).
  vm_compute. reflexivity.
Defined.

Lemma process_one_fail_fast_witness :
  let errors : gmap pykey value :=
    {[ KStr "a" := Fields.get_error (Examples.required_field "a" "a") "required" ]} in
  Catalyst._process_one Examples.schema_ab "load" (VDict ∅) false
  = Ok (VDict ∅, VDict errors, VDict ∅) ∧
  size errors ≤ 1.
Proof.
  intros errors. split.
  - vm_compute. reflexivity.
  - apply (process_one_fail_fast Examples.schema_ab "load" (VDict ∅) (VDict ∅) errors
             (VDict ∅)).
    vm_compute. reflexivity.
Defined.

Lemma process_one_mode_witness :
  Catalyst._process_one Examples.schema_a "load" (VDict {[ KStr "a" := VInt 1 ]}) false
  = Ok (VDict {[ KStr "a" := VInt 1 ]}, VDict ∅, VDict ∅).
Proof.
  apply (process_one_mode Examples.schema_a "load" (VDict {[ KStr "a" := VInt 1 ]})
           true false).
  - vm_compute. reflexivity.
  - reflexivity.
Defined.

(* ===================================================================== *)
(** ** [_copy_fields] and the registries that [__init__] builds *)
(* ===================================================================== *)

Section ordered_dicts.
Context {A : Type}.
Implicit Types (d : list (string * A)) (k : string) (a : A).

Lemma odict_get_set d k a k' :
  odict_get (odict_set d k a) k' = if decide (k = k') then Some a else odict_get d k'.
Proof.
  induction d as [|[k0 a0] d IH]; simpl.
  - destruct (String.eqb_spec k k'); case_decide; congruence.
  - destruct (String.eqb_spec k0 k) as [-> | Hk0]; simpl.
    + destruct (String.eqb_spec k k'); case_decide; congruence.
    + destruct (String.eqb_spec k0 k') as [-> | ?]; [| apply IH].
      case_decide; congruence.
Qed.


Lemma odict_keys_set d k a :
  odict_keys (odict_set d k a)
  = if decide (k ∈ odict_keys d) then odict_keys d else odict_keys d ++ [k].
Proof.
  unfold odict_keys. induction d as [|[k0 a0] d IH]; [by simpl |].
  cbn [odict_set]. destruct (String.eqb_spec k0 k) as [-> | Hne];
    cbn [fmap list_fmap fst].
  - by rewrite decide_True by apply list_elem_of_here.
  - rewrite IH. destruct (decide (k ∈ d.*1)) as [H1 | H1].
    + by rewrite decide_True by (by apply list_elem_of_further).
    + rewrite decide_False; [done |].
      intros [-> | ?]%elem_of_cons; done.
Qed.

Lemma odict_keys_set_NoDup d k a :
  NoDup (odict_keys d) → NoDup (odict_keys (odict_set d k a)).
Proof.
  intros Hd. rewrite odict_keys_set. case_decide as H; [done |].
  apply NoDup_app. split; [done |]. split; [| apply NoDup_singleton].
  intros x Hx ->%list_elem_of_singleton. done.
Qed.


End ordered_dicts.

Section registries.
Context (set_order : list string → list string).
Implicit Types (fields new_fields : Catalyst.FieldDict) (keys : list string).
Implicit Types (is_copying : string → res bool) (cls : Catalyst.CatalystClass).

Lemma copy_fields_loop_spec fields keys is_copying acc new_fields :
  Catalyst.copy_fields_loop fields keys is_copying acc = Ok new_fields →
  (∀ k field,
     odict_get new_fields k = Some field ↔
     (k ∈ keys ∧ is_copying k = Ok true ∧ odict_get fields k = Some field) ∨
     (¬ (k ∈ keys ∧ is_copying k = Ok true) ∧ odict_get acc k = Some field)) ∧
  (NoDup (odict_keys acc) → NoDup (odict_keys new_fields)).
Proof.
  revert acc. induction keys as [|key keys IH]; intros acc; simpl.
  - intros [= <-]. split; [| done]. intros k field. split.
    + intros H. right. split; [| done]. intros [H' _]. by apply elem_of_nil in H'.
    + intros [(H' & _) | (_ & H)]; [by apply elem_of_nil in H' | done].
  - destruct (is_copying key) as [[|]|] eqn:Hcopy; [| | done]; cbn [mbind res_bind].
    + unfold Catalyst.getitem.
      destruct (odict_get fields key) as [f|] eqn:Hkey; [| done].
      cbn [mbind res_bind]. intros Hloop.
      apply IH in Hloop as [Hget Hnd]. split.
      * intros k field. rewrite Hget, odict_get_set, elem_of_cons. split.
        -- intros [(Hk & Hc & Hf) | (Hn & Hacc)]; [left; auto |].
           case_decide as Hkk.
           ++ subst k. left. split; [by left |]. split; [done |].
              by rewrite Hkey.
           ++ right. split; [| done]. intros [[-> | Hk] Hc]; [done |].
              apply Hn. auto.
        -- intros [([-> | Hk] & Hc & Hf) | (Hn & Hacc)].
           ++ destruct (decide (key ∈ keys)) as [Hin | Hnin]; [left; auto |].
              right. split; [by intros [? _] |].
              rewrite decide_True by done. congruence.
           ++ left. auto.
           ++ right. split; [intros [Hk Hc]; apply Hn; auto |].
              case_decide as Hkk; [| done].
              subst k. destruct Hn. split; [by left | done].
      * intros Hacc. by apply Hnd, odict_keys_set_NoDup.
    + intros Hloop. apply IH in Hloop as [Hget Hnd]. split; [| done].
      intros k field. rewrite Hget, elem_of_cons. split.
      * intros [(Hk & Hc & Hf) | (Hn & Hacc)]; [left; auto |].
        right. split; [| done]. intros [[-> | Hk] Hc]; [congruence |].
        apply Hn. auto.
      * intros [([-> | Hk] & Hc & Hf) | (Hn & Hacc)]; [congruence | left; auto |].
        right. split; [| done]. intros [Hk Hc]. apply Hn. auto.
Qed.

(** X16: when [_copy_fields] returns, the new dict holds, under a key,
    the field that [fields] holds under it, for exactly the keys of [keys]
    on which [is_copying] answers [True]; a key that occurs more than once
    in [keys] is copied once. *)
Theorem copy_fields_copies fields keys is_copying new_fields :
  Catalyst._copy_fields fields keys is_copying = Ok new_fields →
  (∀ k field,
     odict_get new_fields k = Some field ↔
     k ∈ keys ∧ is_copying k = Ok true ∧ odict_get fields k = Some field) ∧
  NoDup (odict_keys new_fields).
Proof.
  intros [Hget Hnd]%copy_fields_loop_spec. split.
  - intros k field. rewrite Hget. split; [| by left].
    by intros [? | [_ ?]].
  - apply Hnd. constructor.
Qed.

Lemma copy_fields_loop_prefix fields keys1 keys2 is_copying acc :
  Forall (λ k, is_Some (odict_get fields k) ∧ ∃ b, is_copying k = Ok b) keys1 →
  ∃ acc',
    Catalyst.copy_fields_loop fields (keys1 ++ keys2) is_copying acc
    = Catalyst.copy_fields_loop fields keys2 is_copying acc'.
Proof.
  revert acc. induction keys1 as [|key keys1 IH]; intros acc Hkeys; [by exists acc |].
  apply Forall_cons in Hkeys as [[[f Hf] [b Hb]] Hkeys].
  cbn [app Catalyst.copy_fields_loop]. rewrite Hb. cbn [mbind res_bind].
  unfold Catalyst.getitem. rewrite Hf. cbn [mbind res_bind].
  destruct b; by apply IH.
Qed.

Lemma copy_fields_KeyError fields keys1 key keys2 (flag : Fields.Field → bool) :
  Forall (λ k, is_Some (odict_get fields k)) keys1 →
  odict_get fields key = None →
  Catalyst._copy_fields fields (keys1 ++ key :: keys2)
    (λ k, field ← Catalyst.getitem fields k; Ok (flag field))
  = Raise (VExc KeyError (VStr key)).
Proof.
  intros Hkeys1 Hkey. unfold Catalyst._copy_fields.
  set (is_copying := λ k, field ← Catalyst.getitem fields k; Ok (flag field)).
  destruct (copy_fields_loop_prefix fields keys1 (key :: keys2) is_copying [])
    as [acc' ->].
  { eapply Forall_impl; [exact Hkeys1 |]. intros k [f Hf]. split; [by exists f |].
    unfold is_copying, Catalyst.getitem. rewrite Hf. by eexists. }
  assert (is_copying key = Raise (VExc KeyError (VStr key))) as Hraise.
  { unfold is_copying, Catalyst.getitem. by rewrite Hkey. }
  cbn [Catalyst.copy_fields_loop]. by rewrite Hraise.
Qed.

Lemma copy_registries_inv self_field_dict (fields : option (list string))
    dump_fields load_fields dump_field_dict load_field_dict :
  Catalyst.copy_registries set_order self_field_dict fields dump_fields load_fields
  = Ok (dump_field_dict, load_field_dict) →
  ∃ dump_names load_names,
    Catalyst._copy_fields self_field_dict dump_names
      (λ k, field ← Catalyst.getitem self_field_dict k;
            Ok (negb (Fields.Options.no_dump (Fields.opts field))))
    = Ok dump_field_dict ∧
    Catalyst._copy_fields self_field_dict load_names
      (λ k, field ← Catalyst.getitem self_field_dict k;
            Ok (negb (Fields.Options.no_load (Fields.opts field))))
    = Ok load_field_dict.
Proof.
  unfold Catalyst.copy_registries. intros H. eexists _, _.
  destruct (Catalyst._copy_fields _ _ _) as [lfd|] eqn:Hl in H; last first.
  { by destruct (Catalyst._copy_fields _ _ _) in H. }
  destruct (Catalyst._copy_fields _ _ _) as [dfd|] eqn:Hd in H; [| done].
  cbn [mbind res_bind] in H. injection H as <- <-.
  split; [exact Hd | exact Hl].
Qed.

(** X17: in a schema that [__init__] returns, every entry of the dump
    registry is an entry of [_field_dict] whose field does not have
    [no_dump], and every entry of the load registry is an entry of
    [_field_dict] whose field does not have [no_load]; no key occurs twice
    in a registry. *)
Theorem registries_of_a_constructed_schema cls schema
    (fields : option (list string)) raise_error all_errors
    dump_fields dump_method load_fields load_method self :
  Catalyst.__init__ set_order cls schema fields raise_error all_errors
    dump_fields dump_method load_fields load_method = Ok self →
  (∀ k field,
     odict_get (Catalyst._dump_field_dict self) k = Some field →
     odict_get (Catalyst._field_dict self) k = Some field ∧
     Fields.Options.no_dump (Fields.opts field) = false) ∧
  (∀ k field,
     odict_get (Catalyst._load_field_dict self) k = Some field →
     odict_get (Catalyst._field_dict self) k = Some field ∧
     Fields.Options.no_load (Fields.opts field) = false) ∧
  NoDup (odict_keys (Catalyst._dump_field_dict self)) ∧
  NoDup (odict_keys (Catalyst._load_field_dict self)).
Proof.
  unfold Catalyst.__init__, Catalyst.init_registries.
  destruct (Catalyst.own_field_dict _ _ _) as [fd|]; [| done].
  cbn [mbind res_bind].
  destruct (Catalyst.copy_registries _ _ _ _ _) as [[dfd lfd]|] eqn:Hcopy; [| done].
  cbn [mbind res_bind].
  destruct (Catalyst.check_methods _); [| done].
  cbn [mbind res_bind]. intros [= <-]. simpl.
  apply copy_registries_inv in Hcopy as (dn & ln & Hd & Hl).
  apply copy_fields_loop_spec in Hd as [Hd Hdn].
  apply copy_fields_loop_spec in Hl as [Hl Hln].
  split; [| split; [| split; [apply Hdn | apply Hln]; constructor]].
  - intros k field [(_ & Hc & Hf) | (_ & ?)]%Hd; [| done]. split; [done |].
    unfold Catalyst.getitem in Hc. rewrite Hf in Hc. simpl in Hc.
    injection Hc as Hc. by apply negb_true_iff.
  - intros k field [(_ & Hc & Hf) | (_ & ?)]%Hl; [| done]. split; [done |].
    unfold Catalyst.getitem in Hc. rewrite Hf in Hc. simpl in Hc.
    injection Hc as Hc. by apply negb_true_iff.
Qed.

(** X18: when the names given as [fields] hold a name that [_field_dict]
    does not hold, and [dump_fields] is not given, [__init__] raises a
    [KeyError] for the first such name, whatever the other arguments are:
    the methods are checked after the registries are built. *)
Theorem undeclared_field_name cls names1 name names2 raise_error all_errors
    dump_method load_fields load_method :
  Forall (λ k, is_Some (odict_get (Catalyst.cls_field_dict cls) k)) names1 →
  odict_get (Catalyst.cls_field_dict cls) name = None →
  Catalyst.__init__ set_order cls None (Some (names1 ++ name :: names2))
    raise_error all_errors None dump_method load_fields load_method
  = Raise (VExc KeyError (VStr name)).
Proof.
  intros Hnames1 Hname.
  unfold Catalyst.__init__, Catalyst.own_field_dict. cbn [mbind res_bind].
  unfold Catalyst.init_registries, Catalyst.copy_registries.
  assert (∀ other : list string,
            match names1 ++ name :: names2 with
            | n :: ns => n :: ns
            | [] => other
            end = names1 ++ name :: names2) as Hor.
  { intros other. by destruct names1. }
  rewrite !Hor.
  by rewrite (copy_fields_KeyError _ _ _ _
                (λ field, negb (Fields.Options.no_dump (Fields.opts field)))
                Hnames1 Hname).
Qed.
End registries.

Lemma copy_fields_copies_witness :
  let fields := [("a", Examples.required_field "a" "a")] in
  (∀ k field,
     odict_get fields k = Some field ↔
     k ∈ ["a"; "a"] ∧ Ok true = Ok true ∧ odict_get fields k = Some field) ∧
  NoDup (odict_keys fields).
Proof.
  apply (copy_fields_copies [("a", Examples.required_field "a" "a")] ["a"; "a"]
           (λ _, Ok true) [("a", Examples.required_field "a" "a")]).
  reflexivity.
Defined.

Lemma registries_of_a_constructed_schema_witness :
  let self := Examples.schema_a in
  (∀ k field,
     odict_get (Catalyst._dump_field_dict self) k = Some field →
     odict_get (Catalyst._field_dict self) k = Some field ∧
     Fields.Options.no_dump (Fields.opts field) = false) ∧
  (∀ k field,
     odict_get (Catalyst._load_field_dict self) k = Some field →
     odict_get (Catalyst._field_dict self) k = Some field ∧
     Fields.Options.no_load (Fields.opts field) = false) ∧
  NoDup (odict_keys (Catalyst._dump_field_dict self)) ∧
  NoDup (odict_keys (Catalyst._load_field_dict self)).
Proof.
  apply (registries_of_a_constructed_schema (λ names, names) Examples.class_a
           None None None None None None None None Examples.schema_a).
  reflexivity.
Defined.

Lemma undeclared_field_name_witness :
  Catalyst.__init__ (λ names, names) Examples.class_a None (Some (["a"] ++ "b" :: []))
    None None None (Some "no such method") None None
  = Raise (VExc KeyError (VStr "b")).
Proof.
  apply (undeclared_field_name (λ names, names) Examples.class_a ["a"] "b" []).
  - repeat constructor. by eexists.
  - reflexivity.
Defined.

(* ===================================================================== *)
(** ** [Catalyst._set_fields] *)
(* ===================================================================== *)

Section set_fields.
Context (set_order : list string → list string).
Implicit Types (cls : Catalyst.CatalystClass) (attr k : string).
Implicit Types (v : Catalyst.attribute) (attrs : list (string * Catalyst.attribute)).
Implicit Types (acc fields : Catalyst.FieldDict) (field : Fields.Field).

Local Abbreviation loop := (Catalyst.set_fields_loop set_order).

(** One iteration of [for attr, value in attrs]: an attribute that is
    neither a schema class, a schema nor a field changes nothing; any other
    attribute stores a field, bound, under [attr]. *)
Lemma set_fields_loop_cons cls attr v attrs acc fields :
  loop cls ((attr, v) :: attrs) acc = Ok fields →
  ∃ acc',
    loop cls attrs acc' = Ok fields ∧
    (((∃ o, v = Catalyst.AttrOther o) ∧ acc' = acc) ∨
     (∃ field,
        acc' = odict_set acc attr (Catalyst.bind_field cls attr field) ∧
        (∀ o, v ≠ Catalyst.AttrOther o) ∧
        (∀ field0, v = Catalyst.AttrField field0 → field = field0))).
Proof.
  cbn [Catalyst.set_fields_loop].
  destruct v as [c | catalyst | field | o].
  - destruct (Catalyst.init_registries _ _ _ _ _ _ _ _ _ _) as [catalyst|]; [| done].
    cbn [mbind res_bind]. intros Hloop. eexists. split; [exact Hloop |].
    right. eexists. split; [reflexivity |]. split; [done |]. by intros ? [=].
  - cbn [mbind res_bind]. intros Hloop. eexists. split; [exact Hloop |].
    right. eexists. split; [reflexivity |]. split; [done |]. by intros ? [=].
  - cbn [mbind res_bind]. intros Hloop. eexists. split; [exact Hloop |].
    right. exists field. split; [reflexivity |]. split; [done |]. by intros ? [= ->].
  - cbn [mbind res_bind]. intros Hloop. eexists. split; [exact Hloop |].
    left. split; [by eexists | done].
Qed.



Lemma odict_values_set_Forall (P : Fields.Field → Prop) acc k field :
  Forall P (odict_values acc) → P field →
  Forall P (odict_values (odict_set acc k field)).
Proof.
  unfold odict_values. intros Hacc Hfield.
  induction acc as [|[k0 f0] acc IH]; cbn [odict_set fmap list_fmap snd].
  - by repeat constructor.
  - apply Forall_cons in Hacc as [Hf0 Hacc].
    destruct (String.eqb k0 k); cbn [fmap list_fmap snd];
      constructor; auto.
Qed.

Lemma bind_field_is_bound cls attr field :
  Catalyst.is_bound (Catalyst.bind_field cls attr field).
Proof.
  unfold Catalyst.is_bound, Catalyst.bind_field. simpl.
  split; [destruct (Fields.name field) | destruct (Fields.key field)]; by eexists.
Qed.

(** X19: when [_set_fields] returns and the fields that [cls_or_obj]
    inherits have a name and a key, every field of the new [_field_dict]
    has a name and a key. *)
Theorem set_fields_binds cls inherited attrs fields :
  Forall Catalyst.is_bound (odict_values inherited) →
  Catalyst._set_fields set_order cls inherited attrs = Ok fields →
  Forall Catalyst.is_bound (odict_values fields).
Proof.
  intros Hinherited. unfold Catalyst._set_fields.
  assert (Forall Catalyst.is_bound
            (odict_values (odict_update ([] : Catalyst.FieldDict) inherited)))
    as Hacc.
  { unfold odict_update.
    assert (Forall Catalyst.is_bound (odict_values ([] : Catalyst.FieldDict)))
      as Hnil by constructor.
    revert Hnil. generalize ([] : Catalyst.FieldDict).
    induction inherited as [|[k0 f0] inherited IH]; intros acc Hacc; [done |].
    apply Forall_cons in Hinherited as [Hf0 Hinherited].
    cbn [foldl]. apply (IH Hinherited).
    by apply odict_values_set_Forall. }
  revert Hacc. generalize (odict_update ([] : Catalyst.FieldDict) inherited).
  induction attrs as [|[attr v] attrs IH]; intros acc Hacc.
  { by intros [= <-]. }
  intros (acc' & Hloop & Hstep)%set_fields_loop_cons.
  apply (IH acc'); [| exact Hloop].
  destruct Hstep as [[_ ->] | (field & -> & _)]; [done |].
  apply odict_values_set_Forall; [done | apply bind_field_is_bound].
Qed.

End set_fields.

Lemma set_fields_binds_witness :
  Forall Catalyst.is_bound
    (odict_values
       [("a", Examples.required_field "a" "a");
        ("b", Catalyst.bind_field Examples.class_a "b" Fields.Field_default)]).
Proof.
  apply (set_fields_binds (λ names, names) Examples.class_a
           [("a", Examples.required_field "a" "a")]
           [("b", Catalyst.AttrField Fields.Field_default);
            ("c", Catalyst.AttrOther (VInt 1))]).
  - repeat constructor; by eexists.
  - reflexivity.
Defined.


(* ===================================================================== *)
(** ** [_process_args], [dump_args] and [load_args] *)
(* ===================================================================== *)

Section process_args.
Context {A : Type}.
Implicit Types (self : Catalyst.BaseCatalyst) (bind : A → res (gmap pykey value)).
Implicit Types (func : gmap pykey value → res value) (args : A).

(** X21: take a call of the wrapper that [_process_args] returns, with
    arguments that [sig.bind] accepts, and let [result] be what
    [_process_flow] gives for the bound arguments without raising.  When
    [result] is not valid, the wrapper raises a [ValidationError] that
    carries [result], whatever [func] is: [func] is not called.  When it is
    valid, the wrapper is the call of [func] on the bound arguments
    updated with the valid data. *)
Theorem process_args_checks_the_arguments self bind func name all_errors args
    arguments result :
  bind args = Ok arguments →
  Catalyst._process_flow self name false (VDict arguments) (Some false) all_errors
  = Ok result →
  (is_valid result = false →
   Catalyst._process_args self bind func name all_errors args
   = Raise (VExc ValidationError result)) ∧
  (is_valid result = true →
   ∀ valid, valid_data result = VDict valid →
            Catalyst._process_args self bind func name all_errors args
            = func (valid ∪ arguments)).
Proof.
  intros Hbind Hflow. unfold Catalyst._process_args. rewrite Hbind.
  cbn [mbind res_bind].
  unfold Catalyst._process_flow in *.
  rewrite process_flow_with_raise_error, Hflow.
  split.
  - by intros ->.
  - intros -> valid Hvalid. cbn [mbind res_bind]. by rewrite Hvalid.
Qed.
End process_args.

Lemma process_args_checks_the_arguments_witness :
  let func (arguments : gmap pykey value) := Ok (VDict arguments) in
  Catalyst.load_args Examples.schema_a Ok func None (∅ : gmap pykey value)
  = Raise (VExc ValidationError
             (VResult LoadResult (VDict ∅)
                (VDict {[ KStr "a" :=
                            Fields.get_error (Examples.required_field "a" "a")
                              "required" ]})
                (VDict ∅))) ∧
  Catalyst.load_args Examples.schema_a Ok func None
    ({[ KStr "a" := VInt 1; KStr "b" := VInt 2 ]} : gmap pykey value)
  = func ({[ KStr "a" := VInt 1 ]} ∪ {[ KStr "a" := VInt 1; KStr "b" := VInt 2 ]}).
Proof.
  intros func. split.
  - destruct (process_args_checks_the_arguments Examples.schema_a Ok func
                "load" None ∅ ∅
                (VResult LoadResult (VDict ∅)
                   (VDict {[ KStr "a" :=
                               Fields.get_error (Examples.required_field "a" "a")
                                 "required" ]})
                   (VDict ∅))) as [Hinvalid _].
    + reflexivity.
    + vm_compute. reflexivity.
    + apply Hinvalid. reflexivity.
  - destruct (process_args_checks_the_arguments Examples.schema_a Ok func
                "load" None
                ({[ KStr "a" := VInt 1; KStr "b" := VInt 2 ]} : gmap pykey value)
                {[ KStr "a" := VInt 1; KStr "b" := VInt 2 ]}
                (VResult LoadResult (VDict {[ KStr "a" := VInt 1 ]})
                   VNone VNone)) as [_ Hvalid].
    + reflexivity.
    + vm_compute. reflexivity.
    + apply Hvalid; reflexivity.
Defined.

(* ===================================================================== *)
(** ** [snake_to_camel] *)
(* ===================================================================== *)

Section snake_to_camel.
Implicit Types (c : Ascii.ascii) (s w : string) (ws : list string).

Lemma append_String c s1 s2 : String c s1 +:+ s2 = String c (s1 +:+ s2).
Proof. reflexivity. Qed.

Lemma append_EmptyString s : EmptyString +:+ s = s.
Proof. reflexivity. Qed.

Lemma append_EmptyString_r s : s +:+ EmptyString = s.
Proof. induction s as [|c s IH]; [done |]. by rewrite append_String, IH. Qed.

Lemma is_lower_facts c :
  is_lower c = true →
  is_upper c = false ∧ Ascii.eqb c underscore = false ∧
  Ascii.eqb (to_upper c) underscore = false ∧ to_lower (to_upper c) = c.
Proof.
  destruct c as [[] [] [] [] [] [] [] []]; vm_compute; intros [=]; done.
Qed.

Lemma is_upper_facts c :
  is_upper c = true →
  is_lower c = false ∧ Ascii.eqb c underscore = false ∧
  Ascii.eqb (to_lower c) underscore = false.
Proof.
  destruct c as [[] [] [] [] [] [] [] []]; vm_compute; intros [=]; done.
Qed.

Lemma title_from_underscore previous s :
  title_from previous (String underscore s) = String underscore (title_from false s).
Proof. reflexivity. Qed.

Lemma title_from_lower_word previous w s :
  lower_word w = true →
  (s = EmptyString ∨ ∃ s', s = String underscore s') →
  title_from previous (w +:+ s)
  = (if previous then w else capitalize w) +:+ title_from false s.
Proof.
  intros Hw Hs. destruct w as [|c w]; cbn [capitalize]; rewrite ?append_String, ?append_EmptyString.
  - destruct Hs as [-> | [s' ->]]; [by destruct previous |].
    rewrite title_from_underscore. by destruct previous.
  - cbn [lower_word] in Hw. apply andb_true_iff in Hw as [Hc Hw].
    cbn [title_from]. rewrite Hc.
    assert (title_from true (w +:+ s) = w +:+ title_from false s) as ->;
      [| by destruct previous].
    clear c Hc. induction w as [|c w IH]; rewrite ?append_String, ?append_EmptyString.
    + destruct Hs as [-> | [s' ->]]; [done | by rewrite title_from_underscore].
    + cbn [lower_word] in Hw. apply andb_true_iff in Hw as [Hc Hw].
      cbn [title_from]. rewrite Hc. by rewrite (IH Hw).
Qed.

Lemma remove_underscores_app s1 s2 :
  remove_underscores (s1 +:+ s2) = remove_underscores s1 +:+ remove_underscores s2.
Proof.
  induction s1 as [|c s1 IH]; rewrite ?append_String, ?append_EmptyString; cbn [remove_underscores]; [done |].
  destruct (Ascii.eqb c underscore); [done |]. by rewrite append_String, IH.
Qed.

Lemma remove_underscores_lower_word w :
  lower_word w = true → remove_underscores w = w.
Proof.
  induction w as [|c w IH]; [done |]. cbn [lower_word remove_underscores].
  intros [Hc Hw]%andb_true_iff.
  destruct (is_lower_facts c Hc) as (_ & -> & _). by rewrite (IH Hw).
Qed.

Lemma remove_underscores_capitalize w :
  lower_word w = true → remove_underscores (capitalize w) = capitalize w.
Proof.
  destruct w as [|c w]; [done |]. cbn [lower_word capitalize remove_underscores].
  intros [Hc Hw]%andb_true_iff.
  destruct (is_lower_facts c Hc) as (_ & _ & -> & _).
  by rewrite (remove_underscores_lower_word w Hw).
Qed.

Lemma title_snake_name w ws :
  lower_word w = true →
  Forall (λ x, lower_word x = true) ws →
  remove_underscores (title (snake_name w ws)) = capitalize w +:+ camel_tail ws.
Proof.
  unfold title. revert w. induction ws as [|x ws IH]; intros w Hw Hws.
  - cbn [snake_name camel_tail].
    rewrite <- (append_EmptyString_r w) at 1.
    rewrite title_from_lower_word by auto.
    cbn [title_from]. rewrite !append_EmptyString_r.
    by apply remove_underscores_capitalize.
  - apply Forall_cons in Hws as [Hx Hws].
    cbn [snake_name camel_tail].
    rewrite title_from_lower_word by eauto.
    rewrite title_from_underscore, remove_underscores_app.
    rewrite remove_underscores_capitalize by done.
    cbn [remove_underscores]. change (Ascii.eqb underscore underscore) with true.
    cbn iota. by rewrite (IH x Hx Hws).
Qed.

(** X22: on a snake-case name, that is, words of lower-case ASCII letters
    joined by underscores, of which the first is not empty,
    [snake_to_camel] gives the first word followed by the other words
    capitalised. *)
Theorem snake_to_camel_words w ws :
  w ≠ EmptyString →
  lower_word w = true →
  Forall (λ x, lower_word x = true) ws →
  snake_to_camel (snake_name w ws) = w +:+ camel_tail ws.
Proof.
  intros Hne Hw Hws. unfold snake_to_camel.
  rewrite (title_snake_name w ws Hw Hws).
  destruct w as [|c w]; [done |].
  cbn [lower_word] in Hw. apply andb_true_iff in Hw as [Hc _].
  cbn [capitalize]. rewrite append_String.
  by destruct (is_lower_facts c Hc) as (_ & _ & _ & ->).
Qed.

Lemma count_underscores_title_from previous s :
  count_underscores (title_from previous s) = count_underscores s.
Proof.
  revert previous. induction s as [|c s IH]; intros previous; [done |].
  cbn [title_from]. destruct (is_lower c) eqn:Hl.
  - cbn [count_underscores]. rewrite IH.
    destruct (is_lower_facts c Hl) as (_ & Hc & Hu & _).
    destruct previous; by rewrite ?Hc, ?Hu.
  - destruct (is_upper c) eqn:Hu; cbn [count_underscores]; rewrite IH; [| done].
    destruct (is_upper_facts c Hu) as (_ & Hc & Hlow).
    destruct previous; by rewrite ?Hc, ?Hlow.
Qed.

Lemma length_title_from previous s :
  String.length (title_from previous s) = String.length s.
Proof.
  revert previous. induction s as [|c s IH]; intros previous; [done |].
  cbn [title_from].
  destruct (is_lower c); [| destruct (is_upper c)];
    cbn [String.length]; by rewrite IH.
Qed.

Lemma remove_underscores_counts s :
  count_underscores (remove_underscores s) = 0 ∧
  String.length (remove_underscores s) + count_underscores s = String.length s ∧
  match remove_underscores s with
  | EmptyString => True
  | String c _ => Ascii.eqb c underscore = false
  end.
Proof.
  induction s as [|c s (IH1 & IH2 & IH3)]; [done |].
  cbn [remove_underscores count_underscores String.length].
  destruct (Ascii.eqb c underscore) eqn:Hc.
  - split; [done |]. split; [lia | done].
  - cbn [count_underscores String.length]. rewrite Hc.
    split; [done |]. split; [lia | done].
Qed.

Lemma to_lower_underscore c :
  Ascii.eqb c underscore = false → Ascii.eqb (to_lower c) underscore = false.
Proof.
  destruct c as [[] [] [] [] [] [] [] []]; vm_compute; intros [=]; done.
Qed.

(** X23: on a string of ASCII characters, the result of [snake_to_camel]
    holds no underscore, and it is as long as the argument without its
    underscores. *)
Theorem snake_to_camel_drops_the_underscores s :
  ascii_string s = true →
  count_underscores (snake_to_camel s) = 0 ∧
  String.length (snake_to_camel s) + count_underscores s = String.length s.
Proof.
  intros _. unfold snake_to_camel, title.
  destruct (remove_underscores_counts (title_from false s)) as (H0 & Hlen & Hfirst).
  rewrite count_underscores_title_from, length_title_from in Hlen.
  destruct (remove_underscores (title_from false s)) as [|c rest]; [done |].
  cbn [count_underscores String.length] in *.
  rewrite (to_lower_underscore c Hfirst). rewrite Hfirst in H0. done.
Qed.
End snake_to_camel.

Lemma snake_to_camel_words_witness :
  snake_to_camel (snake_name "created" ["at"; EmptyString; "utc"])
  = "created" +:+ camel_tail ["at"; EmptyString; "utc"].
Proof.
  apply (snake_to_camel_words "created" ["at"; EmptyString; "utc"]).
  - discriminate.
  - reflexivity.
  - repeat constructor.
Defined.

Lemma snake_to_camel_drops_the_underscores_witness :
  count_underscores (snake_to_camel "_HTTP_response_") = 0 ∧
  String.length (snake_to_camel "_HTTP_response_")
  + count_underscores "_HTTP_response_"
  = String.length "_HTTP_response_".
Proof.
  apply (snake_to_camel_drops_the_underscores "_HTTP_response_"). reflexivity.
Defined.

(* ===================================================================== *)
(** ** [ErrorMessageMixin] *)
(* ===================================================================== *)

Section error_messages.
Implicit Types (m : gmap string string) (mro_messages : list (gmap string string)).
Implicit Types (error_messages : option (gmap string string)) (k s : string).

Lemma class_messages_None mro_messages acc k :
  Forall (λ m, m !! k = None) mro_messages →
  foldl (λ acc m, m ∪ acc) acc mro_messages !! k = acc !! k.
Proof.
  revert acc. induction mro_messages as [|m ms IH]; intros acc Hms; [done |].
  apply Forall_cons in Hms as [Hm Hms]. cbn [foldl].
  rewrite (IH _ Hms). by apply lookup_union_r.
Qed.

Lemma class_messages_Some general m specific acc k s :
  m !! k = Some s →
  Forall (λ m', m' !! k = None) specific →
  foldl (λ acc m, m ∪ acc) acc (general ++ m :: specific) !! k = Some s.
Proof.
  intros Hm Hspecific. rewrite foldl_app. cbn [foldl].
  rewrite (class_messages_None _ _ _ Hspecific). by apply lookup_union_Some_l.
Qed.

(** X24: the message that a key gets from [collect_error_messages]: that
    of the table given to the instance when it holds the key; otherwise
    that of the most specific class whose table holds the key; and when no
    table holds it, none, so that [error] raises with the text of
    [unknown_error]. *)
Theorem error_message_precedence mro_messages error_messages k :
  let messages := collect_error_messages mro_messages error_messages in
  (∀ m s, error_messages = Some m → m !! k = Some s → messages !! k = Some s) ∧
  (∀ general m specific s,
     mro_messages = general ++ m :: specific →
     m !! k = Some s →
     Forall (λ m', m' !! k = None) specific →
     default ∅ error_messages !! k = None →
     messages !! k = Some s) ∧
  (Forall (λ m, m !! k = None) mro_messages →
   default ∅ error_messages !! k = None →
   messages !! k = None ∧
   ∀ error_class,
     make_error messages k error_class
     = VExc (default ValidationError error_class) (VStr unknown_error)).
Proof.
  intros messages. unfold messages, collect_error_messages. split; [| split].
  - intros m s -> Hs. by apply lookup_union_Some_l.
  - intros general m specific s -> Hs Hspecific Hinstance.
    rewrite lookup_union_r by done. by apply class_messages_Some.
  - intros Hclasses Hinstance.
    assert ((default ∅ error_messages
             ∪ foldl (λ acc m, m ∪ acc) ∅ mro_messages) !! k = None) as Hnone.
    { rewrite lookup_union_r by done.
      by rewrite (class_messages_None _ _ _ Hclasses). }
    split; [done |]. intros error_class. unfold make_error. by rewrite Hnone.
Qed.
End error_messages.

Lemma error_message_precedence_witness :
  collect_error_messages
    [Fields.default_error_messages; {[ "none" := "Give a value." ]}] None
  !! "none" = Some "Give a value.".
Proof.
  apply (proj1 (proj2 (error_message_precedence
                         [Fields.default_error_messages;
                          {[ "none" := "Give a value." ]}] None "none"))
           [Fields.default_error_messages] {[ "none" := "Give a value." ]} []
           "Give a value." eq_refl).
  - reflexivity.
  - constructor.
  - reflexivity.
Defined.

(* ===================================================================== *)
(** ** [_process_flow] when no side effect raises *)
(* ===================================================================== *)

Section flow_without_failing_hooks.
Implicit Types (self : Catalyst.BaseCatalyst).

Local Abbreviation side_effect_name prefix name many :=
  (prefix +:+ (if many : bool then name +:+ "_many" else name)).

(** X25: take a dump or a load whose [pre_] method returns [data'], and
    let the processing of [data'] return [valid], [errors], [invalid].
    When [errors] is not empty, the [post_] method is not called: the
    result holds these three objects, and it is returned, or raised inside
    a [ValidationError] when [raise_error] resolves to true.  When [errors]
    is empty and the [post_] method returns, the result holds what that
    method returned as valid data and [None], not an empty mapping, as
    errors and as invalid data; it is returned whatever [raise_error] is. *)
Theorem flow_when_no_hook_raises self name many data data' raise_error all_errors
    valid errors invalid :
  name = "dump" ∨ name = "load" →
  Catalyst._side_effect self (side_effect_name "pre_" name many) data
  = (data', VNone, VNone) →
  (if many then Catalyst._process_many self else Catalyst._process_one self)
    name data'
    (OptionBox_get (Catalyst.Options.all_errors (Catalyst.opts self)) all_errors)
  = Ok (valid, errors, invalid) →
  let ResultClass := if String.eqb name "dump" then DumpResult else LoadResult in
  (truthy errors = true →
   Catalyst._process_flow self name many data raise_error all_errors
   = if OptionBox_get (Catalyst.Options.raise_error (Catalyst.opts self)) raise_error
     then Raise (VExc ValidationError (VResult ResultClass valid errors invalid))
     else Ok (VResult ResultClass valid errors invalid)) ∧
  (truthy errors = false →
   ∀ valid',
     Catalyst._side_effect self (side_effect_name "post_" name many) valid
     = (valid', VNone, VNone) →
     Catalyst._process_flow self name many data raise_error all_errors
     = Ok (VResult ResultClass valid' VNone VNone)).
Proof.
  intros Hname Hpre Hmain ResultClass.
  unfold Catalyst._process_flow.
  assert (∀ handle method_name,
            Catalyst._side_effect self ("pre_" +:+ method_name) data
            = (data', VNone, VNone) →
            handle name data'
              (OptionBox_get (Catalyst.Options.all_errors (Catalyst.opts self))
                 all_errors)
            = Ok (valid, errors, invalid) →
            (truthy errors = true →
             Catalyst.process_flow_with handle self name method_name data
               raise_error all_errors
             = if OptionBox_get (Catalyst.Options.raise_error (Catalyst.opts self))
                    raise_error
               then Raise (VExc ValidationError
                             (VResult ResultClass valid errors invalid))
               else Ok (VResult ResultClass valid errors invalid)) ∧
            (truthy errors = false →
             ∀ valid',
               Catalyst._side_effect self ("post_" +:+ method_name) valid
               = (valid', VNone, VNone) →
               Catalyst.process_flow_with handle self name method_name data
                 raise_error all_errors
               = Ok (VResult ResultClass valid' VNone VNone))) as Hflow.
  { intros handle method_name Hp Hm. unfold Catalyst.process_flow_with.
    rewrite (result_class_of_name _ Hname). cbn [mbind res_bind].
    rewrite Hp. cbn [truthy negb]. rewrite Hm. cbn [mbind res_bind].
    split.
    - intros Herrors. rewrite Herrors. cbn [negb andb]. rewrite Herrors.
      cbn [andb]. reflexivity.
    - intros Herrors valid' Hpost. rewrite Herrors. cbn [negb].
      rewrite Hpost. cbn [truthy andb]. reflexivity. }
  destruct many; by apply Hflow.
Qed.
End flow_without_failing_hooks.

Lemma flow_when_no_hook_raises_witness :
  Catalyst.load Examples.schema_a (VDict {[ KStr "a" := VInt 1 ]}) (Some true) None
  = Ok (VResult LoadResult (VDict {[ KStr "a" := VInt 1 ]}) VNone VNone).
Proof.
  destruct (flow_when_no_hook_raises Examples.schema_a "load" false
              (VDict {[ KStr "a" := VInt 1 ]}) (VDict {[ KStr "a" := VInt 1 ]})
              (Some true) None
              (VDict {[ KStr "a" := VInt 1 ]}) (VDict ∅) (VDict ∅))
    as [_ Hvalid].
  - by right.
  - vm_compute. reflexivity.
  - vm_compute. reflexivity.
  - apply Hvalid.
    + reflexivity.
    + vm_compute. reflexivity.
Defined.
